(** * mcp_proxy: schema-to-annotation resolver, signature builder and
      forwarding stubs of [src/mcp_proxy.py]

    The development follows [setup_proxy_tools] of [src/mcp_proxy.py]:
    - [get_python_type], the recursive resolver that turns one JSON-Schema
      fragment into the text of a Python type annotation;
    - the loop that turns the [properties] / [required] / [default] fields
      of a tool's input schema into the parameter list of the generated
      function;
    - the generated function itself (parameter binding, the [None] filter,
      one client session around the forwarded call);
    - the discovery session and the registration loop.

    Python values are JSON values here, a [str] is the string of its UTF-8
    bytes, and a [dict] is the list of its items in insertion order. *)

From Stdlib Require Import ZArith Ascii String List Lia.
From stdpp Require Import base decidable option list strings pretty sorting.

Local Set Warnings "-register-all".
Open Scope string_scope.
Open Scope list_scope.

(** ** JSON values as Python sees them after [json.loads] *)

Module Json.

(** A [float] is kept as its [repr] text (for instance "1.5", "1e+16",
    "inf"), which Python prints for both [str] and [repr] and which is
    unique per value up to the sign of zero and the identity of nan. *)
Inductive json : Type :=
| JNull
| JBool (b : bool)
| JInt (n : Z)
| JFloat (r : string)
| JStr (s : string)
| JList (l : list json)
| JDict (d : list (string * json)).

(** Number of constructors, the measure under which the resolver recurses. *)
Fixpoint size (v : json) : nat :=
  match v with
  | JList l => S (list_sum (map size l))
  | JDict d => S (list_sum (map (fun kv => S (size (snd kv))) d))
  | _ => 1
  end.

End Json.
Export Json.

(** ** The fragment of Python the proxy relies on *)

Module Py.

(** Exceptions: the ones that the dynamically typed operations of the
    source raise, the one that the interpreter raises when a call does
    not fit under its recursion limit, the failure of [exec] on a
    generated definition, and the two kinds of failure that the client
    library reports (the remote tool answered with an error, the
    transport broke). *)
Inductive pyerr : Type :=
| TypeError
| AttributeError
| ValueError
| RecursionError
| ExecError
| RemoteError (msg : string)
| TransportError (msg : string).

(** Result of running a piece of the source: a value, a Python exception,
    or one of two ways in which the model itself has no answer: the
    recursion budget of [get_python_type_fuel] ran out, or the source
    reached a Python operation that the model does not spell out (the
    [repr] of a container, equality between dictionary keys that are not
    strings). *)
Inductive outcome (A : Type) : Type :=
| Ret (a : A)
| Raise (e : pyerr)
| OutOfFuel
| Unmodelled.
Arguments Ret {A} a.
Arguments Raise {A} e.
Arguments OutOfFuel {A}.
Arguments Unmodelled {A}.

Definition bind {A B} (m : outcome A) (k : A -> outcome B) : outcome B :=
  match m with
  | Ret a => k a
  | Raise e => Raise e
  | OutOfFuel => OutOfFuel
  | Unmodelled => Unmodelled
  end.

#[global] Instance outcome_ret : MRet outcome := @Ret.
#[global] Instance outcome_bind : MBind outcome := fun A B k m => bind m k.

(** A [for] loop that collects one result per element and stops at the
    first exception. *)
Fixpoint mapM {A B} (f : A -> outcome B) (l : list A) : outcome (list B) :=
  match l with
  | [] => Ret []
  | x :: xs => y ← f x; ys ← mapM f xs; Ret (y :: ys)
  end.

(** [sep.join(parts)]. *)
Fixpoint join (sep : string) (parts : list string) : string :=
  match parts with
  | [] => ""
  | [p] => p
  | p :: ps => p +:+ sep +:+ join sep ps
  end.

(** [x in xs] for a list of [str]. *)
Definition mem (x : string) (xs : list string) : bool :=
  existsb (String.eqb x) xs.

(** [v == s] for a [str] literal [s]: only a [str] compares equal to it. *)
Definition is_str (v : json) (s : string) : bool :=
  match v with JStr t => String.eqb t s | _ => false end.

(** [bool(v)]. *)
Definition truthy (v : json) : bool :=
  match v with
  | JNull => false
  | JBool b => b
  | JInt n => negb (n =? 0)%Z
  | JFloat r => negb (String.eqb r "0.0" || String.eqb r "-0.0")
  | JStr s => negb (String.eqb s "")
  | JList l => match l with [] => false | _ => true end
  | JDict d => match d with [] => false | _ => true end
  end.

(** Dictionaries: the items in insertion order. *)
Abbreviation dict := (list (string * json)).

Fixpoint dict_get (d : dict) (k : string) : option json :=
  match d with
  | [] => None
  | (k', v) :: d' => if String.eqb k' k then Some v else dict_get d' k
  end.

(** [k in d]. *)
Definition has_key (d : dict) (k : string) : bool :=
  match dict_get d k with Some _ => true | None => false end.

(** [d.get(k)]: [None] when the key is missing. *)
Definition get (d : dict) (k : string) : json :=
  match dict_get d k with Some v => v | None => JNull end.

(** [d.get(k, dflt)]. *)
Definition get_or (d : dict) (k : string) (dflt : json) : json :=
  match dict_get d k with Some v => v | None => dflt end.

(** [d[k] = v]: an existing key keeps its place, a new one goes last. *)
Fixpoint dict_set (d : dict) (k : string) (v : json) : dict :=
  match d with
  | [] => [(k, v)]
  | (k', v') :: d' =>
      if String.eqb k' k then (k', v) :: d' else (k', v') :: dict_set d' k v
  end.

(** The code points of a [str], each as the string of its UTF-8 bytes: a
    byte [10xxxxxx] continues the code point before it. *)
Definition is_continuation (c : ascii) : bool :=
  let n := N_of_ascii c in ((128 <=? n) && (n <? 192))%N.

Fixpoint chars (s : string) : list string :=
  match s with
  | EmptyString => []
  | String c s' =>
      match chars s' with
      | [] => [String c EmptyString]
      | g :: gs =>
          match g with
          | String c' _ =>
              if is_continuation c' then String c g :: gs
              else String c EmptyString :: g :: gs
          | EmptyString => String c EmptyString :: gs
          end
      end
  end.

(** [iter(v)]: a list yields its elements, a [str] its characters, a
    [dict] its keys; anything else is not iterable. *)
Definition iter (v : json) : outcome (list json) :=
  match v with
  | JList l => Ret l
  | JStr s => Ret (map JStr (chars s))
  | JDict d => Ret (map (fun kv => JStr (fst kv)) d)
  | _ => Raise TypeError
  end.

(** [v.values()], which only a [dict] has. *)
Definition values (v : json) : outcome (list json) :=
  match v with
  | JDict d => Ret (map snd d)
  | _ => Raise AttributeError
  end.

(** [str(v)] for the scalars; the text of a container is its [repr],
    which is not spelled out here. *)
Definition str (v : json) : option string :=
  match v with
  | JNull => Some "None"
  | JBool true => Some "True"
  | JBool false => Some "False"
  | JInt n => Some (pretty n)
  | JFloat r => Some r
  | JStr s => Some s
  | JList _ | JDict _ => None
  end.

(** [isinstance(v, str)], [isinstance(v, int)] (a [bool] is an [int] in
    Python), [isinstance(v, (int, float))], [isinstance(v, float)]. *)
Definition isinstance_str (v : json) : bool :=
  match v with JStr _ => true | _ => false end.
Definition isinstance_int (v : json) : bool :=
  match v with JInt _ | JBool _ => true | _ => false end.
Definition isinstance_float (v : json) : bool :=
  match v with JFloat _ => true | _ => false end.
Definition isinstance_bool (v : json) : bool :=
  match v with JBool _ => true | _ => false end.
Definition isinstance_dict (v : json) : bool :=
  match v with JDict _ => true | _ => false end.

(** [sub in s] for two [str]: [sub] occurs in [s]. *)
Fixpoint is_prefix (p s : string) : bool :=
  match p, s with
  | EmptyString, _ => true
  | String a p', String b s' => Ascii.eqb a b && is_prefix p' s'
  | String _ _, EmptyString => false
  end.

Fixpoint contains (sub s : string) : bool :=
  is_prefix sub s ||
  match s with
  | EmptyString => false
  | String _ s' => contains sub s'
  end.

(** [sorted(xs)] on [str]: ascending in code point order. *)
Definition sorted (xs : list string) : list string :=
  merge_sort String.le xs.

End Py.
Export Py.

(** ** [get_python_type] (src/mcp_proxy.py, lines 52-214) *)

Module Resolver.

(** [f"dict[str, ...]"] over the collected value types (lines 100-105 and
    199-204). *)
Definition dict_annotation (value_types : list string) : string :=
  match value_types with
  | [] => "dict[str, Any]"
  | [t] => "dict[str, " +:+ t +:+ "]"
  | _ => "dict[str, Union[" +:+ join ", " value_types +:+ "]]"
  end.

(** The loop of lines 94-98 and 193-197: resolve every value, keep each
    resulting annotation once, in order of first appearance. *)
Fixpoint collect_value_types (rec : json -> outcome string)
    (props : list json) (value_types : list string) : outcome (list string) :=
  match props with
  | [] => Ret value_types
  | prop_info :: rest =>
      prop_type ← rec prop_info;
      collect_value_types rec rest
        (if mem prop_type value_types then value_types
         else value_types ++ [prop_type])
  end.

(** Lines 166-169: remove duplicates while preserving order. *)
Fixpoint unique_from (seen : list string) (ts : list string) : list string :=
  match ts with
  | [] => seen
  | t :: rest => unique_from (if mem t seen then seen else seen ++ [t]) rest
  end.

Definition unique_types (union_types : list string) : list string :=
  unique_from [] union_types.

(** Lines 132-143: the name under which one literal enters [type_set].
    The [isinstance(v, int)] test comes before the [bool] test and a
    Python [bool] is an [int]. *)
Definition literal_kind (v : json) : string :=
  if isinstance_str v then "str"
  else if isinstance_int v then "int"
  else if isinstance_float v then "float"
  else if isinstance_bool v then "bool"
  else "Any".

(** [type_set] as the list of its distinct members. *)
Fixpoint type_set (enum_values : list json) (acc : list string) : list string :=
  match enum_values with
  | [] => acc
  | v :: rest =>
      let k := literal_kind v in
      type_set rest (if mem k acc then acc else k :: acc)
  end.

(** [str(v)] inside the generated text; a container has no modelled text. *)
Definition str_of (v : json) : outcome string :=
  match str v with Some s => Ret s | None => Unmodelled end.

(** [f"Literal[{', '.join(map(str, enum_values))}]"] (lines 126 and 129). *)
Definition literal_of_str (vs : list json) : outcome string :=
  parts ← mapM str_of vs;
  Ret ("Literal[" +:+ join ", " parts +:+ "]").

(** The double quote character. *)
Definition dquote : ascii := "034"%char.

(** [f'"{v}"'] (line 122). *)
Definition quoted (v : json) : outcome string :=
  s ← str_of v;
  Ret (String dquote s +:+ String dquote "").

(** Lines 118-146: the body of the [enum] branch, on [param_info['enum']]. *)
Definition enum_annotation (enum_values : json) : outcome string :=
  if truthy enum_values then
    vs ← iter enum_values;
    if forallb isinstance_str vs then
      escaped_values ← mapM quoted vs;
      Ret ("Literal[" +:+ join ", " escaped_values +:+ "]")
    else if forallb isinstance_int vs then literal_of_str vs
    else if forallb (fun v => isinstance_int v || isinstance_float v) vs then
      literal_of_str vs
    else Ret ("Union[" +:+ join ", " (sorted (type_set vs [])) +:+ "]")
  else Ret "str".

(** Lines 160-175, on the value of [anyOf] (or of [oneOf]). *)
Definition union_annotation (rec : json -> outcome string)
    (schemas : json) : outcome string :=
  if truthy schemas then
    members ← iter schemas;
    union_types ← mapM rec members;
    match unique_types union_types with
    | [t] => Ret t
    | unique => Ret ("Union[" +:+ join ", " unique +:+ "]")
    end
  else Ret "Any".

(** [all_properties.update(props)] (line 186).  A [dict] argument is
    merged key by key.  Any other argument is read as a sequence of
    key/value pairs, every element of which must itself be an iterable
    of length two with a hashable first component. *)
Fixpoint dict_update_items (all_properties : dict) (props : dict) : dict :=
  match props with
  | [] => all_properties
  | (k, v) :: rest => dict_update_items (dict_set all_properties k v) rest
  end.

Definition pair_of (e : json) : outcome (string * json) :=
  match e with
  | JNull | JBool _ | JInt _ | JFloat _ => Raise TypeError
  | JStr s =>
      match chars s with
      | [a; b] => Ret (a, JStr b)
      | _ => Raise ValueError
      end
  | JDict d =>
      match d with
      | [(a, _); (b, _)] => Ret (a, JStr b)
      | _ => Raise ValueError
      end
  | JList l =>
      match l with
      | [k; v] =>
          match k with
          | JStr s => Ret (s, v)
          | JList _ | JDict _ => Raise TypeError
          | _ => Unmodelled
          end
      | _ => Raise ValueError
      end
  end.

Fixpoint dict_update_pairs (all_properties : dict) (elems : list json)
    : outcome dict :=
  match elems with
  | [] => Ret all_properties
  | e :: rest =>
      kv ← pair_of e;
      dict_update_pairs (dict_set all_properties (fst kv) (snd kv)) rest
  end.

Definition dict_update (all_properties : dict) (props : json) : outcome dict :=
  match props with
  | JDict d => Ret (dict_update_items all_properties d)
  | _ => elems ← iter props; dict_update_pairs all_properties elems
  end.

(** Lines 181-189: the loop over [all_schemas].  The result is the pair
    [(all_object, all_properties)] at the end of the loop; the loop stops
    at the first member whose [type] is not "object". *)
Fixpoint merge_all_of (all_schemas : list json) (all_properties : dict)
    : outcome (bool * dict) :=
  match all_schemas with
  | [] => Ret (true, all_properties)
  | schema :: rest =>
      match schema with
      | JDict sd =>
          if is_str (get sd "type") "object" then
            merged ← dict_update all_properties (get_or sd "properties" (JDict []));
            merge_all_of rest merged
          else Ret (false, all_properties)
      | _ => Raise AttributeError
      end
  end.

(** Lines 178-208, on the value of [allOf]. *)
Definition all_of_annotation (rec : json -> outcome string)
    (all_schemas : json) : outcome string :=
  if truthy all_schemas then
    members ← iter all_schemas;
    r ← merge_all_of members [];
    let '(all_object, all_properties) := r in
    if all_object && truthy (JDict all_properties) then
      value_types ← collect_value_types rec (map snd all_properties) [];
      Ret (dict_annotation value_types)
    else Ret "dict[str, Any]"
  else Ret "dict[str, Any]".

(** Lines 74-214: the [if]/[elif] chain on the singular [param_type]. *)
Definition resolve_kind (rec : json -> outcome string)
    (param_info : dict) (param_type : json) : outcome string :=
  if is_str param_type "integer" then Ret "int"
  else if is_str param_type "number" then Ret "float"
  else if is_str param_type "boolean" then Ret "bool"
  else if is_str param_type "array" then
    let items := get_or param_info "items" (JDict []) in
    if truthy items then
      item_type ← rec items;
      Ret ("list[" +:+ item_type +:+ "]")
    else Ret "list[Any]"
  else if is_str param_type "object" then
    let properties := get_or param_info "properties" (JDict []) in
    if truthy properties then
      props ← values properties;
      value_types ← collect_value_types rec props [];
      Ret (dict_annotation value_types)
    else
      let additional_props := get param_info "additionalProperties" in
      if truthy additional_props && isinstance_dict additional_props then
        value_type ← rec additional_props;
        Ret ("dict[str, " +:+ value_type +:+ "]")
      else Ret "dict[str, Any]"
  else if is_str param_type "null" then Ret "type(None)"
  else if has_key param_info "enum" then
    enum_annotation (get param_info "enum")
  else if is_str param_type "string" then Ret "str"
  else if has_key param_info "anyOf" || has_key param_info "oneOf" then
    union_annotation rec
      (get_or param_info "anyOf" (get_or param_info "oneOf" (JList [])))
  else if has_key param_info "allOf" then
    all_of_annotation rec (get_or param_info "allOf" (JList []))
  else if
    match param_type with JNull => true | _ => false end &&
    negb (existsb (has_key param_info)
            ["anyOf"; "oneOf"; "allOf"; "enum"; "$ref"])
  then Ret "Any"
  else Ret "str".

(** One call of [get_python_type], with [rec] for its recursive calls.
    An argument that is not a [dict] fails at ['$ref' in param_info] when
    it is not iterable, and otherwise at [param_info.get], unless the
    membership test already succeeded on it. *)
Definition get_python_type_body (rec : json -> outcome string)
    (param_info : json) : outcome string :=
  match param_info with
  | JDict info =>
      if has_key info "$ref" then Ret "dict[str, Any]"
      else
        let param_type := get info "type" in
        match param_type with
        | JList [t] => resolve_kind rec info t
        | JList ts =>
            type_variants ←
              mapM (fun t => rec (JDict (dict_set info "type" t))) ts;
            Ret ("Union[" +:+ join ", " type_variants +:+ "]")
        | _ => resolve_kind rec info param_type
        end
  | JStr s =>
      if contains "$ref" s then Ret "dict[str, Any]" else Raise AttributeError
  | JList l =>
      if existsb (fun e => is_str e "$ref") l then Ret "dict[str, Any]"
      else Raise AttributeError
  | JNull | JBool _ | JInt _ | JFloat _ => Raise TypeError
  end.

Fixpoint get_python_type_fuel (fuel : nat) (param_info : json)
    : outcome string :=
  match fuel with
  | O => OutOfFuel
  | S fuel' => get_python_type_body (get_python_type_fuel fuel') param_info
  end.

(** Every recursive call is on a strictly smaller value, so the size of
    the argument is budget enough ([get_python_type_terminates]). *)
Definition get_python_type (param_info : json) : outcome string :=
  get_python_type_fuel (size param_info) param_info.

(** [get_python_type] as CPython runs it: every activation takes a frame
    of a stack of bounded depth, the function recurses by plain calls
    (lines 71, 84, 96, 110, 164 and 195) and nothing in it catches an
    exception or raises the limit.  [frames] is the number of frames that
    the interpreter still admits when the call is made: with none left
    the call raises [RecursionError].  An activation also needs room above
    its own frame, for a moment: the generator expressions of lines
    120-127 and 209 run in a frame of their own, and, depending on the
    version of the interpreter, calls of built-in functions, comparisons
    and the [isinstance] on a tuple of line 127 are counted against the
    same limit.  [spare] is the number of levels that the interpreter at
    hand needs for that.  An activation that has this room runs as the
    code says.  In the frames below that, the only answer spelled out is
    the [RecursionError] of a recursive call that does not fit; whether
    another answer survives there depends on the interpreter. *)
Fixpoint get_python_type_on_stack (spare frames : nat) (param_info : json)
    : outcome string :=
  match frames with
  | O => Raise RecursionError
  | S rest =>
      let answer :=
        get_python_type_body (get_python_type_on_stack spare rest)
          param_info in
      if (spare <=? rest)%nat then answer
      else
        match answer with
        | Raise RecursionError => Raise RecursionError
        | _ => Unmodelled
        end
  end.

(** Lines 59-64: [param_type] as the [if]/[elif] chain receives it, that
    is the [type] entry itself or the only member of a one-element list;
    there is none when [type] is a list of another length. *)
Definition singular_type (param_info : dict) : option json :=
  match get param_info "type" with
  | JList [t] => Some t
  | JList _ => None
  | t => Some t
  end.

(** The kinds that the chain settles before it looks for [enum] (lines
    74-115). *)
Definition settled_before_enum (param_type : json) : bool :=
  is_str param_type "integer" || is_str param_type "number" ||
  is_str param_type "boolean" || is_str param_type "array" ||
  is_str param_type "object" || is_str param_type "null".

(** The kinds that the chain settles before it looks for [allOf]: the six
    above and "string" (line 147). *)
Definition settled_before_all_of (param_type : json) : bool :=
  settled_before_enum param_type || is_str param_type "string".

(** Lines 184-186 for one member of [allOf]: the properties that it
    contributes, when it is an object schema whose [properties] (an empty
    mapping when absent) is a mapping. *)
Definition object_properties (schema : json) : option dict :=
  match schema with
  | JDict sd =>
      if is_str (get sd "type") "object" then
        match get_or sd "properties" (JDict []) with
        | JDict props => Some props
        | _ => None
        end
      else None
  | _ => None
  end.

Fixpoint all_object_properties (all_schemas : list json)
    : option (list dict) :=
  match all_schemas with
  | [] => Some []
  | schema :: rest =>
      match object_properties schema, all_object_properties rest with
      | Some props, Some more => Some (props :: more)
      | _, _ => None
      end
  end.

(** [all_properties] after one [update] per member, from the first member
    to the last. *)
Definition merge_properties (members : list dict) : dict :=
  fold_left dict_update_items members [].

(** The seven kinds of JSON Schema that the chain knows by name. *)
Definition known_kind (k : string) : bool :=
  mem k ["integer"; "number"; "boolean"; "string"; "array"; "object"; "null"].

(** The kind that an annotation was resolved from, read off its first
    character: [int], [float], [bool], [type(None)], [list[..]] and
    [dict[..]] start with a letter of their own, and whatever else the
    resolver writes for a known kind ([str], [Literal[..]], [Union[..]])
    comes from "string". *)
Definition annotation_kind (annotation : string) : string :=
  match annotation with
  | String c _ =>
      if Ascii.eqb c "i" then "integer"
      else if Ascii.eqb c "f" then "number"
      else if Ascii.eqb c "b" then "boolean"
      else if Ascii.eqb c "t" then "null"
      else if Ascii.eqb c "l" then "array"
      else if Ascii.eqb c "d" then "object"
      else "string"
  | EmptyString => "string"
  end.

(** The three uniform cases of lines 120-129. *)
Definition uniform_enum (enum_values : list json) : bool :=
  forallb isinstance_str enum_values ||
  forallb isinstance_int enum_values ||
  forallb (fun v => isinstance_int v || isinstance_float v) enum_values.

End Resolver.
Export Resolver.

(** ** The wording of the specification, for comparison *)

Module SpecWords.

(** The literal kinds of the specification: string, integer, number,
    boolean, other, each under the name of its annotation. *)
Definition spec_literal_kind (v : json) : string :=
  match v with
  | JStr _ => "str"
  | JInt _ => "int"
  | JFloat _ => "float"
  | JBool _ => "bool"
  | _ => "Any"
  end.

(** "One primitive variant per distinct literal kind present,
    de-duplicated, in order of first occurrence". *)
Definition spec_enum_union (enum_values : list json) : string :=
  "Union[" +:+ join ", " (unique_types (map spec_literal_kind enum_values))
  +:+ "]".

(** "A Union of the resolved results with duplicates removed by structural
    equality and the original order of first occurrence preserved". *)
Definition spec_type_list_union (variants : list string) : string :=
  "Union[" +:+ join ", " (unique_types variants) +:+ "]".

(** The kinds present among the literals, in the code point order of
    their annotation names. *)
Definition kinds_in_name_order (enum_values : list json) : list string :=
  List.filter
    (fun k : string =>
       existsb (fun v => String.eqb (spec_literal_kind v) k) enum_values)
    ["Any"; "float"; "int"; "str"].

End SpecWords.
Export SpecWords.

(** ** The parameter loop of [setup_proxy_tools] (lines 36-48 and 216-248) *)

Module Signature.

(** A discovered tool: what [list_tools] returns for it. *)
Record tool : Type := Tool {
  tool_name : string;
  tool_description : string;
  inputSchema : dict
}.

(** The right-hand side of one entry of [param_defs], by the line of the
    source that writes it:
    - [NoDefault]: [f"{param_name}: {param_type}"] (line 220);
    - [QuotedDefault s]: [= "{default_val}"], the text of a [str] default
      between double quotes, nothing escaped (line 226);
    - [ReprDefault v]: [= {repr(default_val)}] for a list or dict (line 229);
    - [FormatDefault v]: [= {default_val}], that is [str(default_val)], for
      the remaining kinds, an int, a float or a bool (line 231);
    - [NoneDefault]: [= None] (lines 235 and 237). *)
Inductive default_expr : Type :=
| NoDefault
| QuotedDefault (s : string)
| ReprDefault (v : json)
| FormatDefault (v : json)
| NoneDefault.

(** One entry of [param_defs]: [f"{pd_name}: {pd_annotation}"] followed by
    the default. *)
Record param_def : Type := ParamDef {
  pd_name : string;
  pd_annotation : string;
  pd_default : default_expr
}.

(** The generated parameter has no default: the caller must pass it. *)
Definition pd_required (pd : param_def) : bool :=
  match pd_default pd with NoDefault => true | _ => false end.

(** [param_name in required] (line 219), whatever [required] is. *)
Definition name_in (param_name : string) (required : json) : outcome bool :=
  match required with
  | JList l => Ret (existsb (fun e => is_str e param_name) l)
  | JStr s => Ret (contains param_name s)
  | JDict d => Ret (has_key d param_name)
  | _ => Raise TypeError
  end.

(** Lines 222-237: the entry of a parameter that is not in [required]. *)
Definition optional_def (param_name param_type : string) (default_val : json)
    : param_def :=
  match default_val with
  | JNull =>
      ParamDef param_name ("Optional[" +:+ param_type +:+ "]") NoneDefault
  | JStr s => ParamDef param_name param_type (QuotedDefault s)
  | JList _ | JDict _ => ParamDef param_name param_type (ReprDefault default_val)
  | _ => ParamDef param_name param_type (FormatDefault default_val)
  end.

(** Lines 216-237 for one property. *)
Definition build_param (required : json) (param_name : string)
    (param_info : json) : outcome param_def :=
  param_type ← get_python_type param_info;
  is_required ← name_in param_name required;
  if (is_required : bool) then Ret (ParamDef param_name param_type NoDefault)
  else
    match param_info with
    | JDict info => Ret (optional_def param_name param_type (get info "default"))
    | _ => Raise AttributeError
    end.

(** The loop of line 46 over [properties.items()]. *)
Fixpoint build_params (required : json) (items : dict)
    : outcome (list param_def) :=
  match items with
  | [] => Ret []
  | (param_name, param_info) :: rest =>
      if String.eqb param_name "ctx" then build_params required rest
      else
        pd ← build_param required param_name param_info;
        pds ← build_params required rest;
        Ret (pd :: pds)
  end.

(** Lines 38-46: [param_defs] of one tool; [param_calls] is the list of
    their names. *)
Definition build_signature (schema : dict) : outcome (list param_def) :=
  match get_or schema "properties" (JDict []) with
  | JDict properties =>
      build_params (get_or schema "required" (JList [])) properties
  | _ => Raise AttributeError
  end.

Definition param_calls (param_defs : list param_def) : list string :=
  map pd_name param_defs.

End Signature.
Export Signature.

(** ** The generated function (lines 251-259) *)

Module Stub.

(** The function object that [exec] leaves behind: the tool it forwards
    to, and its parameters in order, each with the value of its default
    when it has one. *)
Record stub : Type := MkStub {
  stub_tool : string;
  stub_params : list (string * option json)
}.

(** Text that a Python string literal between double quotes spells as it
    is: no double quote, no backslash, no line break, no NUL. *)
Definition plain_char (c : ascii) : bool :=
  let n := N_of_ascii c in
  negb ((n =? 34) || (n =? 92) || (n =? 10) || (n =? 13) || (n =? 0))%N.

Fixpoint plain_text (s : string) : bool :=
  match s with
  | EmptyString => true
  | String c s' => plain_char c && plain_text s'
  end.

(** A float whose [repr] is a literal; [inf] and [nan] are names that the
    generated module does not define. *)
Definition finite_repr (r : string) : bool :=
  negb (String.eqb r "inf" || String.eqb r "-inf" || String.eqb r "nan").

Fixpoint finite (v : json) : bool :=
  match v with
  | JFloat r => finite_repr r
  | JList l => forallb finite l
  | JDict d => forallb (fun kv => finite (snd kv)) d
  | _ => true
  end.

(** The value Python computes for a default when the definition runs:
    [None] inside [Ret] for a parameter without default.  The text
    [repr(v)] evaluates back to [v], and so does [str(v)] for a number,
    as long as no [inf] or [nan] occurs; a quoted text evaluates to itself
    when it is plain, and is left without answer otherwise. *)
Definition default_value (d : default_expr) : outcome (option json) :=
  match d with
  | NoDefault => Ret None
  | NoneDefault => Ret (Some JNull)
  | QuotedDefault s => if plain_text s then Ret (Some (JStr s)) else Unmodelled
  | ReprDefault v => if finite v then Ret (Some v) else Unmodelled
  | FormatDefault v =>
      match v with
      | JInt _ | JBool _ => Ret (Some v)
      | JFloat r => if finite_repr r then Ret (Some v) else Unmodelled
      | _ => Unmodelled
      end
  end.

Definition stub_param (pd : param_def) : outcome (string * option json) :=
  dv ← default_value (pd_default pd);
  Ret (pd_name pd, dv).

(** Binding of keyword arguments to the parameters: an argument that the
    caller passes wins, an omitted one takes the default, and an omitted
    one without default is a [TypeError]. *)
Fixpoint bind_args (params : list (string * option json)) (kwargs : dict)
    : outcome dict :=
  match params with
  | [] => Ret []
  | (name, dflt) :: rest =>
      v ← match dict_get kwargs name, dflt with
          | Some v, _ => Ret v
          | None, Some d => Ret d
          | None, None => Raise TypeError
          end;
      bound ← bind_args rest kwargs;
      Ret ((name, v) :: bound)
  end.

(** A keyword that names no parameter is a [TypeError] as well. *)
Definition known_keywords (params : list (string * option json))
    (kwargs : dict) : bool :=
  forallb (fun kv => mem (fst kv) (map fst params)) kwargs.

(** [v is not None]. *)
Definition is_not_none (v : json) : bool :=
  match v with JNull => false | _ => true end.

(** Line 256: [{k: v for k, v in {...}.items() if v is not None}], on the
    dictionary of all parameters in [param_calls] order. *)
Fixpoint filter_none (bound : dict) : dict :=
  match bound with
  | [] => []
  | (k, v) :: rest =>
      if is_not_none v then (k, v) :: filter_none rest else filter_none rest
  end.

(** The payload that one invocation hands to [client.call_tool]. *)
Definition call_args (s : stub) (kwargs : dict) : outcome dict :=
  if known_keywords (stub_params s) kwargs then
    bound ← bind_args (stub_params s) kwargs;
    Ret (filter_none bound)
  else Raise TypeError.

End Stub.
Export Stub.

(** ** Sessions, discovery and registration (lines 25-36, 250-274) *)

Module Proxy.

(** What the proxy runs against and does not define itself: the Python
    compiler that [exec] hands the generated text to, the local host
    [mcp] that the [@mcp.tool] decorator registers with, the transport,
    and the remote endpoint.  Sessions are numbered in the order in which
    the clients are created. *)
Record env : Type := Env {
  (** [exec(func_code, exec_globals)] accepts the definition generated
      for this tool and parameter list *)
  python_accepts : tool -> list param_def -> bool;
  (** the answer of the host to [mcp.tool], given what it was handed before *)
  host_rejects : list stub -> stub -> option pyerr;
  (** the failure of [MCPClient.__aenter__] for session [n], if any *)
  connect_fails : nat -> option pyerr;
  (** [await mcp_client.list_tools()] in session [n] *)
  list_tools : nat -> list tool + pyerr;
  (** [await client.call_tool(name, call_args)] in session [n] *)
  call_tool : nat -> string -> dict -> json + pyerr
}.

Inductive event : Type :=
| Open (n : nat)
| Close (n : nat)
| ListTools (n : nat)
| CallTool (n : nat) (name : string) (payload : dict)
| Register (s : stub).

(** The state that the effects act on: the number of the next client and
    everything that happened so far, oldest first. *)
Record world : Type := World {
  next_session : nat;
  trace : list event
}.

Definition initial : world := World 0 [].

Definition log (ev : event) (w : world) : world :=
  World (next_session w) (trace w ++ [ev]).

(** The stubs handed to the host so far, in order. *)
Fixpoint registered (tr : list event) : list stub :=
  match tr with
  | [] => []
  | Register s :: rest => s :: registered rest
  | _ :: rest => registered rest
  end.

Definition of_answer {A} (a : A + pyerr) : outcome A :=
  match a with inl x => Ret x | inr e => Raise e end.

(** [async with MCPClient(transport=transport_config) as client: body]:
    a new client is created; when entering it fails nothing was opened and
    the failure propagates; otherwise the body runs and the client is
    closed whatever the body did, its result or exception passing through.
    The client is taken not to swallow exceptions on exit. *)
Definition with_client {A} (e : env)
    (body : nat -> world -> outcome A * world) (w : world)
    : outcome A * world :=
  let n := next_session w in
  let w1 := World (S n) (trace w) in
  match connect_fails e n with
  | Some err => (Raise err, w1)
  | None =>
      let '(r, w2) := body n (log (Open n) w1) in
      (r, log (Close n) w2)
  end.

(** Lines 25-33: the discovery session. *)
Definition discover (e : env) (w : world) : outcome (list tool) * world :=
  with_client e
    (fun n w' => (of_answer (list_tools e n), log (ListTools n) w')) w.

(** Lines 36-274 for one tool: build the parameter list, generate the
    definition, run it; the decorator registers the function. *)
Definition synthesize (e : env) (t : tool) : outcome stub :=
  param_defs ← build_signature (inputSchema t);
  if python_accepts e t param_defs then
    params ← mapM stub_param param_defs;
    Ret (MkStub (tool_name t) params)
  else Raise ExecError.

Definition register_tool (e : env) (t : tool) (w : world)
    : outcome unit * world :=
  match synthesize e t with
  | Ret s =>
      match host_rejects e (registered (trace w)) s with
      | Some err => (Raise err, w)
      | None => (Ret tt, log (Register s) w)
      end
  | Raise err => (Raise err, w)
  | OutOfFuel => (OutOfFuel, w)
  | Unmodelled => (Unmodelled, w)
  end.


(** The loop of line 36; an exception leaves it at once. *)
Fixpoint register_all (e : env) (tools_to_register : list tool) (w : world)
    : outcome unit * world :=
  match tools_to_register with
  | [] => (Ret tt, w)
  | t :: rest =>
      match register_tool e t w with
      | (Ret _, w') => register_all e rest w'
      | (other, w') => (other, w')
      end
  end.

(** [setup_proxy_tools]. *)
Definition setup_proxy_tools (e : env) (w : world) : outcome unit * world :=
  match discover e w with
  | (Ret tool_list, w') => register_all e tool_list w'
  | (Raise err, w') => (Raise err, w')
  | (OutOfFuel, w') => (OutOfFuel, w')
  | (Unmodelled, w') => (Unmodelled, w')
  end.

(** The names that the body of a generated function reads when it runs
    (lines 257-258): both are meant to be found in [exec_globals] (lines
    262-273). *)
Definition body_globals : list string := ["MCPClient"; "transport_config"].

(** A parameter named [MCPClient] is a local of the generated function,
    so that line 257 calls the argument bound to it: a JSON value or
    [None], none of which is callable. *)
Definition calls_its_argument (s : stub) : bool :=
  mem "MCPClient" (map fst (stub_params s)).

(** The other ways in which a name of the body is bound to something
    other than the client class and the transport configuration: a
    parameter named [transport_config] is what line 257 hands to the
    client, and a tool named like one of the two names rebinds that name
    in [exec_globals] to what the decorator returned when the definition
    ran. *)
Definition rebinds_globals (s : stub) : bool :=
  mem "transport_config" (map fst (stub_params s)) ||
  mem (stub_tool s) body_globals.

(** One invocation of a generated function with keyword arguments (lines
    253-258): Python binds the arguments before the body runs; the body
    filters them, then creates the client and forwards inside a session
    of its own.  When a parameter is named [MCPClient], creating the
    client is a call of a value that is not callable: [TypeError], and
    nothing is opened.  When a name of the body is rebound otherwise,
    what is created and where it connects is decided outside this file:
    the model gives no answer and leaves the world as it is. *)
Definition invoke (e : env) (s : stub) (kwargs : dict) (w : world)
    : outcome json * world :=
  match call_args s kwargs with
  | Ret payload =>
      if calls_its_argument s then (Raise TypeError, w)
      else if rebinds_globals s then (Unmodelled, w)
      else
        with_client e
          (fun n w' =>
             (of_answer (call_tool e n (stub_tool s) payload),
              log (CallTool n (stub_tool s) payload) w')) w
  | Raise err => (Raise err, w)
  | OutOfFuel => (OutOfFuel, w)
  | Unmodelled => (Unmodelled, w)
  end.

(** Surroundings for worked examples: Python and the host accept
    everything, every connection succeeds, discovery lists [tools] and the
    remote tool answers a call with the payload it received. *)
Definition echo_env (tools : list tool) : env :=
  {| python_accepts := fun _ _ => true;
     host_rejects := fun _ _ => None;
     connect_fails := fun _ => None;
     list_tools := fun _ => inl tools;
     call_tool := fun _ _ payload => inl (JDict payload) |}.

End Proxy.
Export Proxy.

(** ** Schema fragments without misplaced values *)

Module Shape.

(** A fragment is well formed when it is a mapping and every keyword that
    holds sub-schemas holds them in the shape JSON Schema gives it:
    [items], when it is not empty or false, is a well-formed fragment;
    [properties] is a mapping of well-formed fragments;
    [additionalProperties] is a well-formed fragment when it is a mapping;
    [anyOf], [oneOf] and [allOf] are lists of well-formed fragments; and
    [enum] is a list.  Nothing is asked of [type] or of any other key. *)
Fixpoint well_formed (v : json) : bool :=
  match v with
  | JDict d =>
      forallb
        (fun kv =>
           let k := fst kv in
           if String.eqb k "items" then
             negb (truthy (snd kv)) || well_formed (snd kv)
           else if String.eqb k "properties" then
             match snd kv with
             | JDict props => forallb (fun p => well_formed (snd p)) props
             | _ => false
             end
           else if String.eqb k "additionalProperties" then
             match snd kv with
             | JDict _ => well_formed (snd kv)
             | _ => true
             end
           else if String.eqb k "anyOf" || String.eqb k "oneOf"
                   || String.eqb k "allOf" then
             match snd kv with
             | JList members => forallb well_formed members
             | _ => false
             end
           else if String.eqb k "enum" then
             match snd kv with
             | JList _ => true
             | _ => false
             end
           else true)
        d
  | _ => false
  end.

(** The computation came back with a value. *)
Definition returns {A} (o : outcome A) : Prop := exists a, o = Ret a.

(** The computation did not stop for lack of budget. *)
Definition fueled {A} (o : outcome A) : Prop := o <> OutOfFuel.

Create HintDb fuel.

End Shape.
Export Shape.

(** ** Text helpers of the remaining code *)

Module Text.

(** [s.endswith(suffix)]. *)
Fixpoint ends_with (s suffix : string) : bool :=
  String.eqb s suffix ||
  match s with
  | EmptyString => false
  | String _ s' => ends_with s' suffix
  end.

(** [c in chars] for one character. *)
Fixpoint in_chars (c : ascii) (chars : string) : bool :=
  match chars with
  | EmptyString => false
  | String c' rest => Ascii.eqb c c' || in_chars c rest
  end.

(** [s.rstrip(chars)]: [s] without its longest tail made of characters
    of [chars]. *)
Fixpoint rstrip (chars : string) (s : string) : string :=
  match s with
  | EmptyString => EmptyString
  | String c s' =>
      match rstrip chars s' with
      | EmptyString =>
          if in_chars c chars then EmptyString else String c EmptyString
      | kept => String c kept
      end
  end.

(** Every character of [s] is one of [chars]. *)
Fixpoint all_in (chars : string) (s : string) : bool :=
  match s with
  | EmptyString => true
  | String c s' => in_chars c chars && all_in chars s'
  end.

(** [a.split(sep, 1)] for a one-character separator that occurs in [a]:
    the text before the first separator and the text after it; [None]
    when the separator does not occur. *)
Fixpoint split_once (sep : ascii) (a : string) : option (string * string) :=
  match a with
  | EmptyString => None
  | String c rest =>
      if Ascii.eqb c sep then Some (EmptyString, rest)
      else
        match split_once sep rest with
        | Some (before, after) => Some (String c before, after)
        | None => None
        end
  end.

End Text.
Export Text.

(** ** The text of the forwarded dictionary (src/mcp_proxy.py, lines 244-248) *)

Module CallArgsText.

(** [f'"{param}": {param}, '], one parameter of the literal. *)
Definition call_arg_entry (param : string) : string :=
  String dquote param +:+ String dquote ": " +:+ param.

(** Lines 245-248: [call_args_str]. *)
Definition call_args_str (param_calls : list string) : string :=
  rstrip ", "
    (fold_left (fun text param => text +:+ call_arg_entry param +:+ ", ")
       param_calls "{")
  +:+ "}".

End CallArgsText.
Export CallArgsText.

(** ** [main] of the proxy and the transport configuration
       (src/mcp_proxy.py, lines 16-23 and 277-331) *)

Module ProxyMain.

(** The entry of [transport_config["mcpServers"]]. *)
Record transport_config : Type := TransportConfig {
  command : string;
  args : list string
}.

(** Lines 16-23: [command_args[0]] raises [IndexError] on an empty list,
    which is the [None] here. *)
Definition make_transport_config (command_args : list string)
    : option transport_config :=
  match command_args with
  | [] => None
  | first :: _ =>
      Some (TransportConfig first
              (if (1 <? length command_args)%nat then drop 1 command_args
               else []))
  end.

(** Lines 308-310: remove the [--] separator if present. *)
Definition strip_separator (unknown : list string) : list string :=
  match unknown with
  | first :: rest => if String.eqb first "--" then rest else unknown
  | [] => unknown
  end.

(** How a run of [main] ends: [exit(1)]; an [IndexError] out of
    [setup_proxy_tools]; another failure of [setup_proxy_tools], which
    nothing catches; or the server running, with the transport it was
    given ([None] for the bare [mcp.run()]). *)
Inductive main_result : Type :=
| Exit (status : nat) (w : world)
| IndexErrorRaised (w : world)
| SetupRaised (failure : outcome unit) (w : world)
| Run (transport : option string) (port : Z) (host : string)
      (config : transport_config) (w : world).

(** Lines 306-331, after [parse_known_args] returned [mode], [port],
    [host] and the arguments it did not know. *)
Definition main (e : env) (mode : string) (port : Z) (host : string)
    (unknown : list string) (w : world) : main_result :=
  let command_line := strip_separator unknown in
  match command_line with
  | [] => Exit 1 w
  | _ :: _ =>
      match make_transport_config command_line with
      | None => IndexErrorRaised w
      | Some config =>
          match setup_proxy_tools e w with
          | (Ret _, w') =>
              if String.eqb mode "sse" then Run (Some "sse") port host config w'
              else if String.eqb mode "http" then
                Run (Some "http") port host config w'
              else Run None port host config w'
          | (failure, w') => SetupRaised failure w'
          end
      end
  end.

(** The session numbers that get a connection. *)
Definition connects (e : env) (n : nat) : bool :=
  match connect_fails e n with None => true | Some _ => false end.



End ProxyMain.
Export ProxyMain.

(** ** The generated functions under a host that interleaves them
       (src/mcp_proxy.py, lines 253-258 and 326-331) *)

Module Host.

(** A generated function is a coroutine, and the server that [mcp.run]
    starts may have several of them under way: one runs until its next
    [await], then any other may.  The body of lines 253-258 has three
    awaits: entering the client, the forwarded call, and leaving the
    client.  A coroutine is therefore in one of five places: called but
    not yet run; client [n] created, entering it; inside the [async with]
    on session [n], the call pending; leaving session [n] with the
    outcome of the call; finished with an outcome. *)
Inductive coroutine : Type :=
| Called (s : stub) (kwargs : dict)
| Entering (n : nat) (s : stub) (payload : dict)
| Forwarding (n : nat) (s : stub) (payload : dict)
| Leaving (n : nat) (r : outcome json)
| Finished (r : outcome json).

(** One stretch of a coroutine, up to its next await or to its end.  The
    first stretch binds and filters the arguments and creates the client,
    as [invoke] does at once. *)
Definition resume (e : env) (c : coroutine) (w : world)
    : coroutine * world :=
  match c with
  | Called s kwargs =>
      match call_args s kwargs with
      | Ret payload =>
          if calls_its_argument s then (Finished (Raise TypeError), w)
          else if rebinds_globals s then (Finished Unmodelled, w)
          else (Entering (next_session w) s payload,
                World (S (next_session w)) (trace w))
      | Raise err => (Finished (Raise err), w)
      | OutOfFuel => (Finished OutOfFuel, w)
      | Unmodelled => (Finished Unmodelled, w)
      end
  | Entering n s payload =>
      match connect_fails e n with
      | Some err => (Finished (Raise err), w)
      | None => (Forwarding n s payload, log (Open n) w)
      end
  | Forwarding n s payload =>
      (Leaving n (of_answer (call_tool e n (stub_tool s) payload)),
       log (CallTool n (stub_tool s) payload) w)
  | Leaving n r => (Finished r, log (Close n) w)
  | Finished r => (Finished r, w)
  end.

(** A coroutine run without interruption: its four stretches in a row. *)
Definition run_alone (e : env) (c : coroutine) (w : world)
    : coroutine * world :=
  Nat.iter 4 (fun cw => resume e (fst cw) (snd cw)) (c, w).










End Host.
Export Host.

(** ** Fixtures for the resolver *)

Module Fixtures.

(** The keys of a fragment that [get_python_type] reads. *)
Definition read_keys : list string :=
  ["$ref"; "type"; "items"; "properties"; "additionalProperties"; "enum";
   "anyOf"; "oneOf"; "allOf"].

(** Two fragments hold the same values under every key that is read. *)
Definition same_reading (d1 d2 : dict) : Prop :=
  Forall (fun k => dict_get d1 k = dict_get d2 k) read_keys.

(** [{"type": "array", "items": items}]. *)
Definition array_of (items : json) : json :=
  JDict [("type", JStr "array"); ("items", items)].

(** [f"list[{item_type}]"] (line 85). *)
Definition list_of (item_type : string) : string :=
  "list[" +:+ item_type +:+ "]".

(** [isinstance(v, list)]. *)
Definition isinstance_list (v : json) : bool :=
  match v with JList _ => true | _ => false end.

(** The annotations that the resolver writes use the built-in names and
    the names that [exec_globals] provides (lines 262-273), and no other:
    an annotation is one of the plain names or starts with one of the
    four subscripted heads. *)
Definition known_head (annotation : string) : bool :=
  mem annotation ["int"; "float"; "bool"; "str"; "Any"; "type(None)"] ||
  is_prefix "list[" annotation || is_prefix "dict[str, " annotation ||
  is_prefix "Literal[" annotation || is_prefix "Union[" annotation.

End Fixtures.
Export Fixtures.

(** ** The demonstration server (src/mcp_server.py) *)

Module McpServer.

(** [calculate_fibonacci] (lines 62-69); [range(2, n + 1)] runs [n - 1]
    times when [n] is at least 2. *)
Definition calculate_fibonacci (n : Z) : Z :=
  if (n <=? 1)%Z then n
  else
    snd (Nat.iter (Z.to_nat (n - 1))
           (fun ab : Z * Z => (snd ab, (fst ab + snd ab)%Z)) (0%Z, 1%Z)).

End McpServer.
Export McpServer.

(** ** The command line client (src/mcp_cli.py) *)

Module McpCli.

(** [cli] (lines 415-445): the [server_config] that the group builds from
    its options.  [shlex_split] stands for [shlex.split] of the standard
    library, which raises [ValueError] on an unbalanced quotation. *)
Definition cli (shlex_split : string -> outcome (list string))
    (transport server_script server_args server_url : string)
    (server_port timeout : Z) : outcome dict :=
  let server_config :=
    [("timeout", JInt timeout); ("read_timeout", JInt timeout);
     ("sse_read_timeout", JInt (timeout * 10))] in
  if String.eqb transport "stdio" then
    args ← (if negb (String.eqb server_args "") then
              extra ← shlex_split server_args; Ret ([server_script] ++ extra)
            else Ret [server_script]);
    Ret (dict_update_items server_config
           [("command", JStr "python"); ("args", JList (map JStr args))])
  else
    let server_url :=
      if String.eqb server_url "http://localhost:8000"
         && negb (server_port =? 8000)%Z
      then "http://localhost:" +:+ pretty server_port
      else server_url in
    let server_config := dict_set server_config "url" (JStr server_url) in
    if String.eqb transport "sse" then
      Ret (dict_set server_config "url"
             (JStr (if negb (ends_with server_url "/sse")
                    then server_url +:+ "/sse" else server_url)))
    else Ret server_config.

(** The three parameter classes of the MCP client library, with the
    values that [_get_server_params] passes. *)
Inductive server_params : Type :=
| StdioServerParams (command args read_timeout_seconds : json)
| SseServerParams (url timeout sse_read_timeout : json)
| StreamableHttpServerParams
    (url timeout sse_read_timeout terminate_on_close : json).

(** [ModernMcpCli._get_server_params] (lines 71-106). *)
Definition _get_server_params (transport : string) (server_config : dict)
    : outcome server_params :=
  if String.eqb transport "docker" then
    Ret (StdioServerParams (JStr "docker")
           (JList [JStr "run"; JStr "-i"; JStr "--rm"; JStr "mcp/duckduckgo"])
           (get_or server_config "read_timeout" (JInt 30)))
  else if String.eqb transport "stdio" then
    Ret (StdioServerParams
           (get_or server_config "command" (JStr "python"))
           (get_or server_config "args" (JList [JStr "mcp_server.py"]))
           (get_or server_config "read_timeout" (JInt 30)))
  else if String.eqb transport "sse" then
    Ret (SseServerParams
           (get_or server_config "url" (JStr "http://localhost:8000/sse"))
           (get_or server_config "timeout" (JInt 10))
           (get_or server_config "sse_read_timeout" (JInt 300)))
  else if String.eqb transport "http" then
    match get_or server_config "url" (JStr "http://localhost:8000") with
    | JStr url =>
        let url := if ends_with url "/" then rstrip "/" url else url in
        Ret (StreamableHttpServerParams (JStr url)
               (get_or server_config "timeout" (JFloat "30.0"))
               (get_or server_config "sse_read_timeout" (JFloat "300.0"))
               (get_or server_config "terminate_on_close" (JBool true)))
    | _ => Raise AttributeError
    end
  else Raise ValueError.

(** The loop of the [call] command (lines 486-494) over the [--arg]
    options: [None] when an option has no [=], in which case the command
    returns without calling the tool. *)
Fixpoint parse_arguments (arg : list string) (arguments : dict)
    : option dict :=
  match arg with
  | [] => Some arguments
  | a :: rest =>
      if contains "=" a then
        match split_once "=" a with
        | Some (key, value) =>
            parse_arguments rest (dict_set arguments key (JStr value))
        | None => None
        end
      else None
  end.

End McpCli.
Export McpCli.

(** * Facts *)

(** ** Sizes of JSON values *)

Section SizeFacts.

Lemma size_pos (v : json) : 1 <= size v.
Proof. destruct v; simpl; lia. Qed.

Lemma size_elem (l : list json) (x : json) :
  x ∈ l -> size x < size (JList l).
Proof.
  simpl. induction 1 as [ x l | x y l _ IH ]; simpl; lia.
Qed.

Lemma size_item (d : dict) (k : string) (v : json) :
  (k, v) ∈ d -> size v + 2 <= size (JDict d).
Proof.
  simpl. remember (k, v) as kv eqn:E.
  induction 1 as [ kv d | kv y d _ IH ]; subst; simpl in *; [ lia | ].
  specialize (IH eq_refl). lia.
Qed.

Lemma dict_get_elem (d : dict) (k : string) (v : json) :
  dict_get d k = Some v -> (k, v) ∈ d.
Proof.
  induction d as [ | [k' v'] d IH ]; simpl; [ discriminate | ].
  destruct (String.eqb k' k) eqn:E.
  - apply String.eqb_eq in E. intros [= ->]. subst. left.
  - intros H. right. auto.
Qed.

Lemma size_dict_get (d : dict) (k : string) (v : json) :
  dict_get d k = Some v -> size v + 2 <= size (JDict d).
Proof. intros H. eapply size_item, dict_get_elem, H. Qed.

(** Writing a smaller value under a key that is present shrinks the
    dictionary. *)
Lemma size_dict_set (d : dict) (k : string) (old new : json) :
  dict_get d k = Some old ->
  size (JDict (dict_set d k new)) + size old = size (JDict d) + size new.
Proof.
  simpl. induction d as [ | [k' v'] d IH ]; simpl; [ discriminate | ].
  destruct (String.eqb k' k) eqn:E.
  - intros [= ->]. simpl. lia.
  - intros H. specialize (IH H). simpl. lia.
Qed.

Lemma size_iter (v : json) (l : list json) :
  iter v = Ret l -> Forall (fun x => size x <= size v) l.
Proof.
  destruct v; simpl; try discriminate; intros [= <-]; apply Forall_forall.
  - intros x Hx. apply list_elem_of_fmap in Hx as (c & -> & _). simpl. lia.
  - intros x Hx. apply size_elem in Hx. simpl in Hx. lia.
  - intros x Hx. apply list_elem_of_fmap in Hx as (c & -> & _). simpl. lia.
Qed.

End SizeFacts.

(** ** The resolver only consults its recursive calls on smaller values *)

Section ResolverExt.

Variables f g : json -> outcome string.

Lemma mapM_ext {A} (h k : A -> outcome string) (l : list A) :
  Forall (fun x => h x = k x) l -> mapM h l = mapM k l.
Proof.
  induction 1 as [ | x l Hx _ IH ]; simpl; [ reflexivity | ].
  rewrite Hx, IH. reflexivity.
Qed.

Lemma collect_value_types_ext (props : list json) (acc : list string) :
  Forall (fun x => f x = g x) props ->
  collect_value_types f props acc = collect_value_types g props acc.
Proof.
  intros H. revert acc.
  induction H as [ | x l Hx _ IH ]; intros acc; simpl; [ reflexivity | ].
  rewrite Hx. destruct (g x); simpl; auto.
Qed.

Lemma dict_set_Forall (P : string * json -> Prop) (d : dict) k v :
  Forall P d -> P (k, v) -> Forall P (dict_set d k v).
Proof.
  intros Hd Hv. induction Hd as [ | [k' v'] d Hx Hd IH ]; simpl.
  - constructor; [ assumption | constructor ].
  - destruct (String.eqb k' k) eqn:E.
    + apply String.eqb_eq in E. subst. constructor; assumption.
    + constructor; assumption.
Qed.

Lemma dict_update_items_small (B : nat) (props acc : dict) :
  Forall (fun kv => size (snd kv) < B) acc ->
  Forall (fun kv => size (snd kv) < B) props ->
  Forall (fun kv => size (snd kv) < B) (dict_update_items acc props).
Proof.
  intros Hacc Hprops. revert acc Hacc.
  induction Hprops as [ | [k v] props Hv _ IH ]; intros acc Hacc; simpl.
  - assumption.
  - apply IH. apply dict_set_Forall; auto.
Qed.

Lemma pair_of_small (e : json) (k : string) (v : json) :
  pair_of e = Ret (k, v) -> size v <= size e.
Proof.
  destruct e as [ | | | | s | l | d ]; simpl; try discriminate.
  - destruct (chars s) as [ | a [ | b [ | ] ] ]; try discriminate.
    intros [= <- <-]. simpl. lia.
  - destruct l as [ | x [ | y [ | ] ] ]; try discriminate.
    destruct x; try discriminate. intros [= <- <-]. simpl. lia.
  - destruct d as [ | [a x] [ | [b y] [ | ] ] ]; try discriminate.
    intros [= <- <-]. simpl. lia.
Qed.

Lemma dict_update_pairs_small (B : nat) (elems : list json) (acc merged : dict) :
  Forall (fun kv => size (snd kv) < B) acc ->
  Forall (fun e => size e < B) elems ->
  dict_update_pairs acc elems = Ret merged ->
  Forall (fun kv => size (snd kv) < B) merged.
Proof.
  intros Hacc Helems. revert acc Hacc.
  induction Helems as [ | e elems He _ IH ]; intros acc Hacc; simpl.
  - intros [= <-]. assumption.
  - destruct (pair_of e) as [ [k v] | | | ] eqn:E; try discriminate. simpl.
    apply IH. apply pair_of_small in E.
    apply dict_set_Forall; simpl; auto. lia.
Qed.

Lemma dict_values_small (d : dict) :
  Forall (fun kv => size (snd kv) < size (JDict d)) d.
Proof.
  apply Forall_forall. intros [k v] H. apply size_item in H. simpl in *. lia.
Qed.

Lemma dict_update_small (B : nat) (props : json) (acc merged : dict) :
  Forall (fun kv => size (snd kv) < B) acc ->
  size props < B ->
  dict_update acc props = Ret merged ->
  Forall (fun kv => size (snd kv) < B) merged.
Proof.
  intros Hacc Hprops.
  assert (forall elems, iter props = Ret elems ->
            dict_update_pairs acc elems = Ret merged ->
            Forall (fun kv => size (snd kv) < B) merged) as Hpairs.
  { intros elems Hi. apply dict_update_pairs_small; [ assumption | ].
    apply size_iter in Hi. eapply Forall_impl; [ exact Hi | ].
    simpl. intros x Hx. lia. }
  destruct props as [ | | | | s | l | d ]; simpl; try discriminate.
  - apply (Hpairs _ eq_refl).
  - apply (Hpairs _ eq_refl).
  - intros [= <-]. apply dict_update_items_small; [ assumption | ].
    eapply Forall_impl; [ apply dict_values_small | ].
    intros kv Hkv. simpl in *. lia.
Qed.

Lemma merge_all_of_small (B : nat) (members : list json) (acc props : dict)
    (all_object : bool) :
  Forall (fun kv => size (snd kv) < B) acc ->
  Forall (fun m => size m < B) members ->
  merge_all_of members acc = Ret (all_object, props) ->
  Forall (fun kv => size (snd kv) < B) props.
Proof.
  intros Hacc Hm. revert acc Hacc.
  induction Hm as [ | m members Hm _ IH ]; intros acc Hacc; simpl.
  - intros [= _ <-]. assumption.
  - destruct m as [ | | | | | | sd ]; try discriminate.
    destruct (is_str (get sd "type") "object").
    + destruct (dict_update acc _) as [ merged | | | ] eqn:E; try discriminate.
      simpl. apply IH. eapply dict_update_small; [ exact Hacc | | exact E ].
      unfold get_or. destruct (dict_get sd "properties") eqn:G.
      * apply size_dict_get in G. lia.
      * pose proof (size_pos (JDict sd)). simpl in *. lia.
    + intros [= _ <-]. assumption.
Qed.

Lemma union_annotation_ext (schemas : json) :
  (forall x, size x <= size schemas -> f x = g x) ->
  union_annotation f schemas = union_annotation g schemas.
Proof.
  intros H. unfold union_annotation.
  destruct (truthy schemas); [ | reflexivity ].
  destruct (iter schemas) as [ members | | | ] eqn:E; simpl; try reflexivity.
  rewrite (mapM_ext f g members); [ reflexivity | ].
  apply size_iter in E. eapply Forall_impl; [ exact E | ]. simpl. auto.
Qed.

Lemma all_of_annotation_ext (all_schemas : json) :
  (forall x, size x <= size all_schemas -> f x = g x) ->
  all_of_annotation f all_schemas = all_of_annotation g all_schemas.
Proof.
  intros H. unfold all_of_annotation.
  destruct (truthy all_schemas); [ | reflexivity ].
  destruct (iter all_schemas) as [ members | | | ] eqn:E; simpl; try reflexivity.
  destruct (merge_all_of members []) as [ [ao props] | | | ] eqn:M;
    simpl; try reflexivity.
  destruct (ao && _); [ | reflexivity ].
  rewrite (collect_value_types_ext (map snd props) []); [ reflexivity | ].
  apply (merge_all_of_small (S (size all_schemas))) in M.
  - apply Forall_fmap. eapply Forall_impl; [ exact M | ].
    simpl. intros kv Hkv. apply H. lia.
  - constructor.
  - apply size_iter in E. eapply Forall_impl; [ exact E | ]. simpl. lia.
Qed.

Lemma resolve_kind_ext (info : dict) (param_type : json) :
  (forall x, size x < size (JDict info) -> f x = g x) ->
  resolve_kind f info param_type = resolve_kind g info param_type.
Proof.
  intros H.
  assert (forall k x, dict_get info k = Some x ->
            forall y, size y <= size x -> f y = g y) as Hsub.
  { intros k x G y Hy. apply size_dict_get in G. apply H. lia. }
  unfold resolve_kind.
  repeat match goal with
         | |- (if is_str param_type ?s then _ else _) = _ =>
             destruct (is_str param_type s); [ try reflexivity | ]
         end.
  - (* array *)
    unfold get_or. destruct (dict_get info "items") as [ items | ] eqn:G;
      [ | reflexivity ].
    destruct (truthy items); [ | reflexivity ].
    rewrite (Hsub _ _ G items) by lia. reflexivity.
  - (* object *)
    unfold get_or, get.
    destruct (dict_get info "additionalProperties") as [ addl | ] eqn:Ga.
    + rewrite (Hsub _ _ Ga addl) by lia.
      destruct (dict_get info "properties") as [ props | ] eqn:Gp;
        [ | reflexivity ].
      destruct (truthy props); [ | reflexivity ].
      destruct props as [ | | | | | | d ]; try reflexivity.
      simpl values. cbn [mbind outcome_bind bind].
      rewrite (collect_value_types_ext (map snd d) []); [ reflexivity | ].
      apply Forall_fmap. eapply Forall_impl; [ apply dict_values_small | ].
      intros kv Hkv. apply (Hsub _ _ Gp). simpl in *. lia.
    + destruct (dict_get info "properties") as [ props | ] eqn:Gp;
        [ | reflexivity ].
      destruct (truthy props); [ | reflexivity ].
      destruct props as [ | | | | | | d ]; try reflexivity.
      simpl values. cbn [mbind outcome_bind bind].
      rewrite (collect_value_types_ext (map snd d) []); [ reflexivity | ].
      apply Forall_fmap. eapply Forall_impl; [ apply dict_values_small | ].
      intros kv Hkv. apply (Hsub _ _ Gp). simpl in *. lia.
  - (* enum, string, anyOf/oneOf, allOf, no type *)
    destruct (has_key info "enum"); [ reflexivity | ].
    destruct (is_str param_type "string"); [ reflexivity | ].
    destruct (has_key info "anyOf" || has_key info "oneOf").
    { unfold get_or.
      destruct (dict_get info "anyOf") as [ any_of | ] eqn:Ga.
      - apply union_annotation_ext, (Hsub _ _ Ga).
      - destruct (dict_get info "oneOf") as [ one_of | ] eqn:Go;
          [ | reflexivity ].
        apply union_annotation_ext, (Hsub _ _ Go). }
    destruct (has_key info "allOf"); [ | reflexivity ].
    unfold get_or. destruct (dict_get info "allOf") as [ all_of | ] eqn:Gl;
      [ | reflexivity ].
    apply all_of_annotation_ext, (Hsub _ _ Gl).
Qed.

Lemma get_python_type_body_ext (v : json) :
  (forall x, size x < size v -> f x = g x) ->
  get_python_type_body f v = get_python_type_body g v.
Proof.
  intros H. destruct v as [ | | | | | | info ]; try reflexivity.
  unfold get_python_type_body.
  destruct (has_key info "$ref"); [ reflexivity | ].
  unfold get. destruct (dict_get info "type") as [ pt | ] eqn:G;
    [ | apply resolve_kind_ext, H ].
  destruct pt as [ | | | | | ts | ]; try apply resolve_kind_ext, H.
  assert (mapM (fun t => f (JDict (dict_set info "type" t))) ts =
          mapM (fun t => g (JDict (dict_set info "type" t))) ts) as E.
  { apply mapM_ext, Forall_forall. intros t Ht. apply H.
    pose proof (size_dict_set info "type" (JList ts) t G) as Hs.
    apply size_elem in Ht. lia. }
  destruct ts as [ | t [ | t' ts' ] ]; try apply resolve_kind_ext, H.
  - reflexivity.
  - rewrite E. reflexivity.
Qed.

End ResolverExt.

(** ** Termination and the defining equation of the resolver *)

Section Fueled.

Lemma fueled_Ret {A} (a : A) : fueled (Ret a).
Proof. discriminate. Qed.

Lemma fueled_Raise {A} (e : pyerr) : fueled (@Raise A e).
Proof. discriminate. Qed.

Lemma fueled_Unmodelled {A} : fueled (@Unmodelled A).
Proof. discriminate. Qed.

Lemma fueled_bind {A B} (m : outcome A) (k : A -> outcome B) :
  fueled m -> (forall a, fueled (k a)) -> fueled (m ≫= k).
Proof.
  intros Hm Hk. unfold mbind, outcome_bind, bind.
  destruct m; [ apply Hk | discriminate | | discriminate ].
  exfalso. apply Hm. reflexivity.
Qed.

Lemma fueled_mapM {A B} (h : A -> outcome B) (l : list A) :
  (forall x, fueled (h x)) -> fueled (mapM h l).
Proof.
  intros H. induction l as [ | x l IH ]; simpl; [ discriminate | ].
  apply fueled_bind; [ apply H | intros y ].
  apply fueled_bind; [ exact IH | intros ys; discriminate ].
Qed.

Lemma fueled_collect (rec : json -> outcome string) props acc :
  (forall x, fueled (rec x)) -> fueled (collect_value_types rec props acc).
Proof.
  intros H. revert acc. induction props as [ | x l IH ]; intros acc; simpl.
  - discriminate.
  - apply fueled_bind; [ apply H | intros t; apply IH ].
Qed.

Lemma fueled_iter (v : json) : fueled (iter v).
Proof. destruct v; discriminate. Qed.

Lemma fueled_values (v : json) : fueled (values v).
Proof. destruct v; discriminate. Qed.

Lemma fueled_str_of (v : json) : fueled (str_of v).
Proof. unfold str_of. destruct (str v); discriminate. Qed.

Lemma fueled_pair_of (e : json) : fueled (pair_of e).
Proof.
  destruct e as [ | | | | s | l | d ]; simpl; try discriminate.
  - destruct (chars s) as [ | a [ | b [ | ] ] ]; discriminate.
  - destruct l as [ | x [ | y [ | ] ] ]; try discriminate.
    destruct x; discriminate.
  - destruct d as [ | [a x] [ | [b y] [ | ] ] ]; discriminate.
Qed.

Lemma fueled_dict_update_pairs (elems : list json) (acc : dict) :
  fueled (dict_update_pairs acc elems).
Proof.
  revert acc. induction elems as [ | e l IH ]; intros acc; simpl.
  - discriminate.
  - apply fueled_bind; [ apply fueled_pair_of | intros kv; apply IH ].
Qed.

Lemma fueled_dict_update (acc : dict) (props : json) :
  fueled (dict_update acc props).
Proof.
  destruct props; simpl; try discriminate; apply fueled_dict_update_pairs.
Qed.

Lemma fueled_merge_all_of (members : list json) (acc : dict) :
  fueled (merge_all_of members acc).
Proof.
  revert acc. induction members as [ | m l IH ]; intros acc; simpl.
  - discriminate.
  - destruct m; try discriminate.
    destruct (is_str _ _); [ | discriminate ].
    apply fueled_bind; [ apply fueled_dict_update | intros; apply IH ].
Qed.

End Fueled.

#[export] Hint Resolve fueled_Ret fueled_Raise fueled_Unmodelled fueled_mapM
  fueled_collect fueled_iter fueled_values fueled_str_of fueled_pair_of
  fueled_dict_update fueled_merge_all_of : fuel.

(** Split a goal [fueled _] along binds and conditionals. *)
Ltac fuel_step :=
  match goal with
  | |- fueled (_ ≫= _) => apply fueled_bind; [ | intros ]
  | |- fueled (mapM _ _) => apply fueled_mapM; intros
  | |- fueled (if ?c then _ else _) => destruct c
  | |- fueled (match ?x with _ => _ end) => destruct x
  | |- fueled (let '(_, _) := ?x in _) => destruct x
  end.
Ltac fuel := repeat fuel_step; auto with fuel.

Section ResolverNeverStarves.

Variable rec : json -> outcome string.
Hypothesis rec_fueled : forall x, fueled (rec x).

Lemma fueled_enum_annotation (enum_values : json) :
  fueled (enum_annotation enum_values).
Proof. unfold enum_annotation, literal_of_str, quoted. fuel. Qed.

Lemma fueled_union_annotation (schemas : json) :
  fueled (union_annotation rec schemas).
Proof. unfold union_annotation. fuel. Qed.

Lemma fueled_all_of_annotation (all_schemas : json) :
  fueled (all_of_annotation rec all_schemas).
Proof. unfold all_of_annotation. fuel. Qed.

Lemma fueled_resolve_kind (info : dict) (param_type : json) :
  fueled (resolve_kind rec info param_type).
Proof.
  unfold resolve_kind.
  repeat match goal with
         | |- fueled (if ?c then _ else _) => destruct c
         end;
  auto using fueled_enum_annotation, fueled_union_annotation,
    fueled_all_of_annotation with fuel;
  fuel.
Qed.

Lemma fueled_body (v : json) : fueled (get_python_type_body rec v).
Proof.
  destruct v as [ | | | | s | l | info ]; simpl; try discriminate.
  - destruct (contains _ _); discriminate.
  - destruct (existsb _ _); discriminate.
  - destruct (has_key _ _); [ discriminate | ].
    destruct (get info "type") as [ | | | | | ts | ];
      try apply fueled_resolve_kind.
    destruct ts as [ | t [ | t' ts' ] ]; try apply fueled_resolve_kind; fuel.
Qed.

End ResolverNeverStarves.

Section ResolverTotal.

(** With a budget of at least the size of the argument the result no
    longer depends on the budget. *)
Lemma get_python_type_fuel_stable (n : nat) (v : json) :
  size v <= n -> get_python_type_fuel n v = get_python_type v.
Proof.
  unfold get_python_type. revert v.
  induction n as [ n IH ] using lt_wf_ind. intros v Hn.
  pose proof (size_pos v) as Hpos.
  destruct n as [ | n ]; [ lia | ].
  destruct (size v) as [ | m ] eqn:Hm; [ lia | ].
  simpl. apply get_python_type_body_ext. intros x Hx.
  rewrite (IH n) by lia. rewrite (IH m) by lia. reflexivity.
Qed.

(** [get_python_type] satisfies the recursive definition of the source. *)
Lemma get_python_type_unfold (v : json) :
  get_python_type v = get_python_type_body get_python_type v.
Proof.
  unfold get_python_type at 1.
  pose proof (size_pos v) as Hpos.
  destruct (size v) as [ | m ] eqn:Hm; [ lia | ].
  simpl. apply get_python_type_body_ext. intros x Hx.
  apply get_python_type_fuel_stable. lia.
Qed.

(** The recursion of [get_python_type] ends: the budget that
    [get_python_type] passes is never used up. *)
Lemma get_python_type_terminates (v : json) : fueled (get_python_type v).
Proof.
  induction v as [ v IH ] using (induction_ltof1 _ size). unfold ltof in IH.
  rewrite get_python_type_unfold.
  rewrite (get_python_type_body_ext get_python_type
             (fun x => if decide (size x < size v) then get_python_type x
                       else Ret "") v).
  - apply fueled_body. intros x. destruct (decide _); [ auto | discriminate ].
  - intros x Hx. destruct (decide _); [ reflexivity | lia ].
Qed.

End ResolverTotal.

(** ** Well-formed fragments always resolve *)

Section WellFormedFacts.








End WellFormedFacts.

Section ReturnsFacts.

Lemma returns_Ret {A} (a : A) : returns (Ret a).
Proof. exists a. reflexivity. Qed.

Lemma bind_Ret_inv {A B} (m : outcome A) (k : A -> outcome B) (b : B) :
  m ≫= k = Ret b -> exists a, m = Ret a /\ k a = Ret b.
Proof. destruct m; try discriminate. intros H. eauto. Qed.






End ReturnsFacts.

Section ResolvesWellFormed.

Variable rec : json -> outcome string.
Hypothesis rec_returns : forall x, well_formed x = true -> returns (rec x).








End ResolvesWellFormed.

(** ** The fallback of the [enum] branch lists its kinds in name order *)

Section EnumKinds.

Lemma mem_elem_of (x : string) (xs : list string) :
  mem x xs = true <-> x ∈ xs.
Proof.
  unfold mem. rewrite existsb_exists. split.
  - intros (y & Hy & E). apply String.eqb_eq in E. subst.
    apply list_elem_of_In, Hy.
  - intros H. exists x. split; [ apply list_elem_of_In, H | ].
    apply String.eqb_refl.
Qed.

Lemma type_set_elem_of (vs : list json) (acc : list string) (k : string) :
  k ∈ type_set vs acc <->
  k ∈ acc \/ exists v, v ∈ vs /\ literal_kind v = k.
Proof.
  revert acc. induction vs as [ | v vs IH ]; intros acc; simpl.
  - split; [ auto | ]. intros [ H | (v & Hv & _) ]; [ exact H | ].
    inversion Hv.
  - rewrite IH. split.
    + intros [ H | (w & Hw & E) ].
      * destruct (mem (literal_kind v) acc) eqn:M; [ auto | ].
        apply elem_of_cons in H as [ -> | H ]; [ right | auto ].
        exists v. split; [ left | reflexivity ].
      * right. exists w. split; [ right; exact Hw | exact E ].
    + intros [ H | (w & Hw & E) ].
      * left. destruct (mem _ acc); [ exact H | right; exact H ].
      * apply elem_of_cons in Hw as [ -> | Hw ].
        -- left. subst k. destruct (mem (literal_kind v) acc) eqn:M.
           ++ apply mem_elem_of, M.
           ++ left.
        -- right. eauto.
Qed.

Lemma type_set_NoDup (vs : list json) (acc : list string) :
  NoDup acc -> NoDup (type_set vs acc).
Proof.
  revert acc. induction vs as [ | v vs IH ]; intros acc H; simpl; [ exact H | ].
  apply IH. destruct (mem (literal_kind v) acc) eqn:M; [ exact H | ].
  constructor; [ | exact H ].
  intros Hin. apply mem_elem_of in Hin. congruence.
Qed.

(** The name "bool" never enters [type_set]: a [bool] passes the
    [isinstance(v, int)] test first. *)
Lemma literal_kind_names (v : json) :
  literal_kind v ∈ ["Any"; "float"; "int"; "str"].
Proof.
  destruct v; cbn;
    repeat first [ apply list_elem_of_here | apply list_elem_of_further ].
Qed.

Lemma sorted_type_set (vs : list json) :
  sorted (type_set vs []) =
  List.filter
    (fun k : string => existsb (fun v => String.eqb (literal_kind v) k) vs)
    ["Any"; "float"; "int"; "str"].
Proof.
  set (p := fun k : string => existsb (fun v => String.eqb (literal_kind v) k) vs).
  unfold sorted.
  apply (StronglySorted_unique String.le).
  - apply StronglySorted_merge_sort; apply _.
  - cbn [List.filter].
    destruct (p "Any"), (p "float"), (p "int"), (p "str");
      repeat constructor.
  - rewrite merge_sort_Permutation. apply NoDup_Permutation.
    + apply type_set_NoDup. constructor.
    + apply NoDup_ListNoDup, List.NoDup_filter, NoDup_ListNoDup.
      repeat constructor; rewrite ?elem_of_cons, ?elem_of_nil;
        intuition discriminate.
    + intros k. rewrite type_set_elem_of. split.
      * intros [ H | (v & Hv & E) ]; [ inversion H | ].
        apply list_elem_of_In, filter_In. split.
        -- apply list_elem_of_In. subst k. apply literal_kind_names.
        -- unfold p. apply existsb_exists. exists v.
           split; [ apply list_elem_of_In, Hv | ].
           apply String.eqb_eq, E.
      * intros H. apply list_elem_of_In, filter_In in H as [_ H].
        unfold p in H. apply existsb_exists in H as (v & Hv & E).
        right. exists v.
        split; [ apply list_elem_of_In, Hv | apply String.eqb_eq, E ].
Qed.

End EnumKinds.

(** ** The branches of the resolver, one equation each *)

Section Branches.

Lemma get_python_type_singular (info : dict) (param_type : json) :
  has_key info "$ref" = false ->
  singular_type info = Some param_type ->
  get_python_type (JDict info) = resolve_kind get_python_type info param_type.
Proof.
  intros Href Hs. rewrite get_python_type_unfold. unfold get_python_type_body.
  rewrite Href. unfold singular_type in Hs.
  destruct (get info "type") as [ | | | | | ts | ];
    try (injection Hs as <-; reflexivity).
  destruct ts as [ | t [ | t' ts' ] ]; try discriminate.
  injection Hs as <-. reflexivity.
Qed.

(** Lines 62-72: a [type] list of any length but one. *)
Lemma get_python_type_type_list (info : dict) (ts : list json) :
  has_key info "$ref" = false ->
  get info "type" = JList ts -> length ts <> 1 ->
  get_python_type (JDict info) =
  (type_variants ←
     mapM (fun t => get_python_type (JDict (dict_set info "type" t))) ts;
   Ret ("Union[" +:+ join ", " type_variants +:+ "]")).
Proof.
  intros Href Ht Hlen. rewrite get_python_type_unfold.
  unfold get_python_type_body. rewrite Href, Ht.
  destruct ts as [ | t [ | t' ts' ] ]; [ reflexivity | | reflexivity ].
  simpl in Hlen. congruence.
Qed.

Lemma settled_before_enum_false (param_type : json) :
  settled_before_enum param_type = false ->
  is_str param_type "integer" = false /\ is_str param_type "number" = false /\
  is_str param_type "boolean" = false /\ is_str param_type "array" = false /\
  is_str param_type "object" = false /\ is_str param_type "null" = false.
Proof.
  unfold settled_before_enum. intros H.
  repeat (apply orb_false_elim in H as [H ?]). auto 10.
Qed.

Lemma resolve_kind_enum (rec : json -> outcome string) (info : dict)
    (param_type : json) :
  settled_before_enum param_type = false -> has_key info "enum" = true ->
  resolve_kind rec info param_type = enum_annotation (get info "enum").
Proof.
  intros Hk He. apply settled_before_enum_false in Hk
    as (H1 & H2 & H3 & H4 & H5 & H6).
  unfold resolve_kind. rewrite H1, H2, H3, H4, H5, H6, He. reflexivity.
Qed.

Lemma resolve_kind_all_of (rec : json -> outcome string) (info : dict)
    (param_type : json) :
  settled_before_all_of param_type = false ->
  has_key info "enum" = false -> has_key info "anyOf" = false ->
  has_key info "oneOf" = false -> has_key info "allOf" = true ->
  resolve_kind rec info param_type =
  all_of_annotation rec (get_or info "allOf" (JList [])).
Proof.
  intros Hk He Ha Ho Hall. unfold settled_before_all_of in Hk.
  apply orb_false_elim in Hk as [Hk Hs].
  apply settled_before_enum_false in Hk as (H1 & H2 & H3 & H4 & H5 & H6).
  unfold resolve_kind.
  rewrite H1, H2, H3, H4, H5, H6, He, Hs, Ha, Ho, Hall. reflexivity.
Qed.

Lemma merge_all_of_objects (members : list json) (propss : list dict)
    (acc : dict) :
  all_object_properties members = Some propss ->
  merge_all_of members acc = Ret (true, fold_left dict_update_items propss acc).
Proof.
  revert propss acc. induction members as [ | m members IH ];
    intros propss acc; simpl.
  - intros [= <-]. reflexivity.
  - destruct (object_properties m) as [ props | ] eqn:E; [ | discriminate ].
    destruct (all_object_properties members) as [ more | ]; [ | discriminate ].
    intros [= <-]. unfold object_properties in E.
    destruct m as [ | | | | | | sd ]; try discriminate.
    destruct (is_str (get sd "type") "object"); [ | discriminate ].
    destruct (get_or sd "properties" (JDict [])); try discriminate.
    injection E as ->. simpl. apply IH. reflexivity.
Qed.

Lemma merge_all_of_stops (before after : list json) (propss : list dict)
    (sd acc : dict) :
  all_object_properties before = Some propss ->
  is_str (get sd "type") "object" = false ->
  merge_all_of (before ++ JDict sd :: after) acc =
  Ret (false, fold_left dict_update_items propss acc).
Proof.
  revert propss acc. induction before as [ | m before IH ];
    intros propss acc; simpl.
  - intros [= <-] ->. reflexivity.
  - destruct (object_properties m) as [ props | ] eqn:E; [ | discriminate ].
    destruct (all_object_properties before) as [ more | ]; [ | discriminate ].
    intros [= <-] Hsd. unfold object_properties in E.
    destruct m as [ | | | | | | md ]; try discriminate.
    destruct (is_str (get md "type") "object"); [ | discriminate ].
    destruct (get_or md "properties" (JDict [])); try discriminate.
    injection E as ->. simpl. apply IH; [ reflexivity | exact Hsd ].
Qed.

(** What [get_python_type] answers for the object schema that has exactly
    the given properties. *)
Lemma get_python_type_object (props : dict) :
  get_python_type (JDict [("type", JStr "object"); ("properties", JDict props)])
  = if truthy (JDict props) then
      value_types ← collect_value_types get_python_type (map snd props) [];
      Ret (dict_annotation value_types)
    else Ret "dict[str, Any]".
Proof.
  rewrite get_python_type_unfold. cbn.
  destruct props; reflexivity.
Qed.

(** A later [update] wins: the merged value of a key is the one of the
    last item that carries it, and an untouched key keeps what it had. *)
Lemma dict_get_set (d : dict) (k k' : string) (v : json) :
  dict_get (dict_set d k v) k' =
  if String.eqb k k' then Some v else dict_get d k'.
Proof.
  induction d as [ | [k0 v0] d IH ]; simpl.
  - destruct (String.eqb k k'); reflexivity.
  - destruct (String.eqb k0 k) eqn:E0; simpl.
    + apply String.eqb_eq in E0. subst k0.
      destruct (String.eqb k k'); reflexivity.
    + destruct (String.eqb k0 k') eqn:E1; [ | exact IH ].
      apply String.eqb_eq in E1. subst k0.
      rewrite String.eqb_sym, E0. reflexivity.
Qed.

Lemma dict_get_update_items (acc props : dict) (k : string) :
  dict_get (dict_update_items acc props) k =
  match dict_get (rev props) k with
  | Some v => Some v
  | None => dict_get acc k
  end.
Proof.
  revert acc. induction props as [ | [k0 v0] props IH ]; intros acc; simpl.
  - reflexivity.
  - rewrite IH, dict_get_set.
    assert (forall d, dict_get (d ++ [(k0, v0)]) k =
              match dict_get d k with
              | Some v => Some v
              | None => if String.eqb k0 k then Some v0 else None
              end) as Happ.
    { intros d. induction d as [ | [k1 v1] d IHd ]; simpl; [ reflexivity | ].
      destruct (String.eqb k1 k); [ reflexivity | exact IHd ]. }
    rewrite Happ. destruct (dict_get (rev props) k); [ reflexivity | ].
    destruct (String.eqb k0 k); reflexivity.
Qed.

End Branches.

(** ** A [type] list of distinct kinds gives distinct annotations *)

Section TypeLists.

Lemma mapM_map {A B C} (h : B -> outcome C) (k : A -> B) (l : list A) :
  mapM h (map k l) = mapM (fun x => h (k x)) l.
Proof.
  induction l as [ | x l IH ]; simpl; [ | rewrite IH ]; reflexivity.
Qed.

Lemma unique_from_NoDup (seen ts : list string) :
  NoDup (seen ++ ts) -> unique_from seen ts = seen ++ ts.
Proof.
  revert seen. induction ts as [ | t ts IH ]; intros seen H; simpl.
  - rewrite app_nil_r. reflexivity.
  - destruct (mem t seen) eqn:M.
    + apply mem_elem_of in M. apply NoDup_app in H as (_ & H & _).
      exfalso. apply (H t M). left.
    + rewrite IH; rewrite <- app_assoc; [ reflexivity | exact H ].
Qed.

Lemma enum_annotation_kind (enum_values : json) (r : string) :
  enum_annotation enum_values = Ret r -> annotation_kind r = "string".
Proof.
  unfold enum_annotation, literal_of_str.
  destruct (truthy enum_values); [ | intros [= <-]; reflexivity ].
  destruct (iter enum_values) as [ vs | | | ]; try discriminate.
  cbn [mbind outcome_bind bind].
  destruct (forallb isinstance_str vs).
  { destruct (mapM quoted vs); try discriminate.
    intros [= <-]. reflexivity. }
  destruct (forallb isinstance_int vs).
  { destruct (mapM str_of vs); try discriminate.
    intros [= <-]. reflexivity. }
  destruct (forallb _ vs).
  { destruct (mapM str_of vs); try discriminate.
    intros [= <-]. reflexivity. }
  intros [= <-]. reflexivity.
Qed.

Lemma dict_annotation_kind (value_types : list string) :
  annotation_kind (dict_annotation value_types) = "object".
Proof. destruct value_types as [ | t [ | t' l ] ]; reflexivity. Qed.

Lemma resolve_kind_known (rec : json -> outcome string) (info : dict)
    (k r : string) :
  known_kind k = true ->
  resolve_kind rec info (JStr k) = Ret r -> annotation_kind r = k.
Proof.
  intros Hk. unfold known_kind in Hk. apply mem_elem_of in Hk.
  repeat (apply elem_of_cons in Hk as [ -> | Hk ]);
    [ .. | inversion Hk ]; unfold resolve_kind; simpl.
  - intros [= <-]. reflexivity.
  - intros [= <-]. reflexivity.
  - intros [= <-]. reflexivity.
  - destruct (has_key info "enum"); [ apply enum_annotation_kind | ].
    intros [= <-]. reflexivity.
  - destruct (truthy _); [ | intros [= <-]; reflexivity ].
    destruct (rec _); try discriminate. intros [= <-]. reflexivity.
  - destruct (truthy (get_or info "properties" (JDict []))).
    + destruct (values _); try discriminate. simpl.
      destruct (collect_value_types _ _ _); try discriminate.
      intros [= <-]. apply dict_annotation_kind.
    + destruct (_ && _); [ | intros [= <-]; reflexivity ].
      destruct (rec _); try discriminate. intros [= <-]. reflexivity.
  - intros [= <-]. reflexivity.
Qed.

Lemma variant_kind (info : dict) (k r : string) :
  has_key info "$ref" = false -> known_kind k = true ->
  get_python_type (JDict (dict_set info "type" (JStr k))) = Ret r ->
  annotation_kind r = k.
Proof.
  intros Href Hk H.
  rewrite (get_python_type_singular _ (JStr k)) in H.
  - eapply resolve_kind_known; eassumption.
  - unfold has_key in *. rewrite dict_get_set. exact Href.
  - unfold singular_type, get. rewrite dict_get_set. reflexivity.
Qed.

Lemma variants_kinds (info : dict) (kinds variants : list string) :
  has_key info "$ref" = false -> forallb known_kind kinds = true ->
  mapM (fun k => get_python_type (JDict (dict_set info "type" (JStr k))))
    kinds = Ret variants ->
  map annotation_kind variants = kinds.
Proof.
  intros Href. revert variants.
  induction kinds as [ | k kinds IH ]; intros variants Hk; simpl.
  - intros [= <-]. reflexivity.
  - simpl in Hk. apply andb_prop in Hk as [Hk Hks]. intros H.
    apply bind_Ret_inv in H as (r & Hr & H).
    apply bind_Ret_inv in H as (rs & Hrs & H). injection H as <-.
    simpl. rewrite (variant_kind info k r Href Hk Hr), (IH rs Hks Hrs).
    reflexivity.
Qed.

End TypeLists.

(** ** Worked scenarios *)

Section Scenarios.

(** An integer parameter [n] that the schema requires. *)
Example scenario_required_integer :
  get_python_type (JDict [("type", JStr "integer")]) = Ret "int" /\
  build_signature
    [("properties", JDict [("n", JDict [("type", JStr "integer")])]);
     ("required", JList [JStr "n"])]
  = Ret [ParamDef "n" "int" NoDefault].
Proof. split; reflexivity. Qed.

(** A [type] list of two kinds. *)
Example scenario_type_list :
  get_python_type (JDict [("type", JList [JStr "string"; JStr "integer"])])
  = Ret "Union[str, int]".
Proof. reflexivity. Qed.

(** Two structurally identical members of [anyOf] collapse to one. *)
Example scenario_any_of_collapses :
  get_python_type
    (JDict [("anyOf", JList [JDict [("type", JStr "integer")];
                             JDict [("type", JStr "integer")]])])
  = Ret "int".
Proof. reflexivity. Qed.

(** The property named [ctx] is skipped, and an optional parameter
    without default is wrapped in [Optional]. *)
Example scenario_ctx_and_optional :
  build_signature
    [("properties",
      JDict [("ctx", JDict []); ("q", JDict [("type", JStr "string")])])]
  = Ret [ParamDef "q" "Optional[str]" NoneDefault].
Proof. reflexivity. Qed.

(** [add_numbers] called with [a = 2] and [b = 3]: the payload is exactly
    these two items, the call is the only one of its session, and the
    answer of the endpoint is returned as it is. *)
Example scenario_add_numbers :
  let add_numbers :=
    Tool "add_numbers" "Add two numbers."
      [("properties", JDict [("a", JDict [("type", JStr "number")]);
                             ("b", JDict [("type", JStr "number")])]);
       ("required", JList [JStr "a"; JStr "b"])] in
  synthesize (echo_env [add_numbers]) add_numbers
  = Ret (MkStub "add_numbers" [("a", None); ("b", None)]) /\
  invoke (echo_env [add_numbers])
    (MkStub "add_numbers" [("a", None); ("b", None)])
    [("a", JInt 2); ("b", JInt 3)] (World 1 [])
  = (Ret (JDict [("a", JInt 2); ("b", JInt 3)]),
     World 2 [Open 1;
              CallTool 1 "add_numbers" [("a", JInt 2); ("b", JInt 3)];
              Close 1]).
Proof. split; reflexivity. Qed.

(** A missing required argument is rejected before any session opens. *)
Example scenario_missing_argument :
  invoke (echo_env []) (MkStub "add_numbers" [("a", None); ("b", None)])
    [("a", JInt 2)] initial
  = (Raise TypeError, initial).
Proof. reflexivity. Qed.

End Scenarios.

(** ** The resolver on a stack of bounded depth *)

Section Stack.

Variable spare : nat.


Lemma get_python_type_body_array_of (rec : json -> outcome string)
    (items : json) :
  get_python_type_body rec (array_of items) =
  if truthy items then t ← rec items; Ret (list_of t) else Ret "list[Any]".
Proof. reflexivity. Qed.

Lemma truthy_nested_arrays (depth : nat) (innermost : json) :
  truthy innermost = true ->
  truthy (Nat.iter depth array_of innermost) = true.
Proof. intros Ht. destruct depth; [ exact Ht | reflexivity ]. Qed.

(** Arrays nested as deep as the stack, or deeper, overflow it. *)
Lemma nested_arrays_overflow (frames depth : nat) (innermost : json) :
  truthy innermost = true -> frames <= depth ->
  get_python_type_on_stack spare frames
    (Nat.iter depth array_of innermost) =
  Raise RecursionError.
Proof.
  intros Ht. revert depth. induction frames as [ | rest IH ];
    intros depth Hd; [ reflexivity | ].
  destruct depth as [ | depth ]; [ lia | ].
  change (Nat.iter (S depth) array_of innermost)
    with (array_of (Nat.iter depth array_of innermost)).
  cbn [get_python_type_on_stack].
  rewrite get_python_type_body_array_of, (truthy_nested_arrays _ _ Ht).
  rewrite IH by lia. cbn [mbind outcome_bind bind].
  destruct (spare <=? rest)%nat; reflexivity.
Qed.

(** Arrays nested with room to spare resolve level by level. *)
Lemma nested_arrays_fit (frames depth : nat) (innermost : json) :
  truthy innermost = true -> depth + spare <= frames ->
  get_python_type_on_stack spare frames
    (Nat.iter depth array_of innermost) =
  (t ← get_python_type_on_stack spare (frames - depth) innermost;
   Ret (Nat.iter depth list_of t)).
Proof.
  intros Ht. revert frames. induction depth as [ | depth IH ];
    intros frames Hd.
  - rewrite Nat.sub_0_r. simpl.
    destruct (get_python_type_on_stack spare frames innermost);
      reflexivity.
  - destruct frames as [ | rest ]; [ lia | ].
    change (Nat.iter (S depth) array_of innermost)
      with (array_of (Nat.iter depth array_of innermost)).
    cbn [get_python_type_on_stack].
    destruct (Nat.leb_spec spare rest) as [ _ | ]; [ | lia ].
    rewrite get_python_type_body_array_of, (truthy_nested_arrays _ _ Ht).
    rewrite IH by lia. change (S rest - S depth) with (rest - depth).
    destruct (get_python_type_on_stack spare (rest - depth) innermost);
      reflexivity.
Qed.

End Stack.

(** ** Settled claims about [get_python_type] *)

Section ResolverClaims.




(** A well-formed fragment that the stack has no room for: arrays nested
    a thousand deep under a limit of a thousand frames raise
    [RecursionError]. *)
Lemma get_python_type_raises_on_deep_nesting :
  well_formed (Nat.iter 1000 array_of (JDict [("type", JStr "string")]))
  = true /\
  get_python_type_on_stack 4 1000
    (Nat.iter 1000 array_of (JDict [("type", JStr "string")]))
  = Raise RecursionError.
Proof.
  split; [ vm_compute; reflexivity | ].
  apply nested_arrays_overflow; [ reflexivity | lia ].
Qed.


(** C3, as amended: when a fragment without [$ref] has an [enum] entry
    and its [type] (taken out of a one-element list if need be) is none of
    integer, number, boolean, array, object, null, the resolver answers
    with the enum rule; this covers a missing [type], "string" and any
    unrecognised kind.  The six kinds named are settled before [enum] is
    looked at. *)
Theorem enum_rule_after_settled_kinds (info : dict) (param_type : json) :
  has_key info "$ref" = false ->
  singular_type info = Some param_type ->
  settled_before_enum param_type = false ->
  has_key info "enum" = true ->
  get_python_type (JDict info) = enum_annotation (get info "enum").
Proof.
  intros Href Hs Hk He.
  rewrite (get_python_type_singular info param_type Href Hs).
  apply resolve_kind_enum; assumption.
Qed.

Lemma enum_rule_after_settled_kinds_witness :
  get_python_type
    (JDict [("type", JStr "string"); ("enum", JList [JInt 1; JInt 2])])
  = enum_annotation (JList [JInt 1; JInt 2]).
Proof.
  apply (enum_rule_after_settled_kinds
           [("type", JStr "string"); ("enum", JList [JInt 1; JInt 2])]
           (JStr "string")); reflexivity.
Defined.

(** C3, as stated, fails: with [type] "integer" the [enum] entry is not
    consulted, and the answer is [int] instead of the literal type that the
    enum rule gives. *)
Lemma integer_type_hides_enum :
  get_python_type
    (JDict [("type", JStr "integer"); ("enum", JList [JInt 1; JInt 2])])
  = Ret "int" /\
  enum_annotation (JList [JInt 1; JInt 2]) = Ret "Literal[1, 2]" /\
  get_python_type
    (JDict [("type", JStr "integer"); ("enum", JList [JInt 1; JInt 2])])
  <> enum_annotation (JList [JInt 1; JInt 2]).
Proof.
  split; [ reflexivity | ]. split; [ reflexivity | ].
  vm_compute. discriminate.
Qed.

Lemma uniform_enum_false (vs : list json) :
  uniform_enum vs = false ->
  truthy (JList vs) = true /\
  forallb isinstance_str vs = false /\
  forallb isinstance_int vs = false /\
  forallb (fun v => isinstance_int v || isinstance_float v) vs = false.
Proof.
  unfold uniform_enum. intros H.
  apply orb_false_elim in H as [H H3]. apply orb_false_elim in H as [H1 H2].
  repeat split; try assumption.
  destruct vs; [ discriminate | reflexivity ].
Qed.

Lemma kinds_without_bool (vs : list json) (k : string) :
  forallb (fun v => negb (isinstance_bool v)) vs = true ->
  existsb (fun v => String.eqb (literal_kind v) k) vs =
  existsb (fun v => String.eqb (spec_literal_kind v) k) vs.
Proof.
  induction vs as [ | v vs IH ]; simpl; [ reflexivity | ].
  intros H. apply andb_prop in H as [Hv Hvs]. rewrite (IH Hvs).
  destruct v; try discriminate; reflexivity.
Qed.

(** C4, as amended: when the enum rule is reached (see C3) and the list
    of literals is not uniformly strings, integers or numbers, the answer
    is a Union with one member per literal kind present, each once, in the
    code point order of the member names, [Any], [float], [int], [str],
    whatever the order of the literals.  The statement covers the lists
    without booleans. *)
Theorem mixed_enum_union_in_name_order (info : dict) (param_type : json)
    (enum_values : list json) :
  has_key info "$ref" = false ->
  singular_type info = Some param_type ->
  settled_before_enum param_type = false ->
  dict_get info "enum" = Some (JList enum_values) ->
  uniform_enum enum_values = false ->
  forallb (fun v => negb (isinstance_bool v)) enum_values = true ->
  get_python_type (JDict info) =
  Ret ("Union[" +:+ join ", " (kinds_in_name_order enum_values) +:+ "]").
Proof.
  intros Href Hs Hk He Hmixed Hbool.
  rewrite (get_python_type_singular info param_type Href Hs).
  rewrite resolve_kind_enum
    by (try assumption; unfold has_key; rewrite He; reflexivity).
  unfold get. rewrite He.
  apply uniform_enum_false in Hmixed as (Ht & H1 & H2 & H3).
  unfold enum_annotation. rewrite Ht. cbn [iter mbind outcome_bind bind].
  rewrite H1, H2, H3, sorted_type_set. unfold kinds_in_name_order.
  erewrite List.filter_ext; [ reflexivity | ].
  intros k. apply kinds_without_bool, Hbool.
Qed.

Lemma mixed_enum_union_in_name_order_witness :
  get_python_type
    (JDict [("enum", JList [JStr "a"; JNull; JFloat "1.5"; JInt 1; JStr "b"])])
  = Ret "Union[Any, float, int, str]".
Proof.
  apply (mixed_enum_union_in_name_order
           [("enum", JList [JStr "a"; JNull; JFloat "1.5"; JInt 1; JStr "b"])]
           JNull [JStr "a"; JNull; JFloat "1.5"; JInt 1; JStr "b"]);
    reflexivity.
Defined.

(** C4, as stated, fails: for the literals "a" and 1, in this order, the
    members would be [str] then [int] by first occurrence, and the code
    answers with [int] then [str]. *)
Lemma mixed_enum_not_in_occurrence_order :
  get_python_type (JDict [("enum", JList [JStr "a"; JInt 1])])
  = Ret "Union[int, str]" /\
  spec_enum_union [JStr "a"; JInt 1] = "Union[str, int]" /\
  get_python_type (JDict [("enum", JList [JStr "a"; JInt 1])])
  <> Ret (spec_enum_union [JStr "a"; JInt 1]).
Proof.
  split; [ reflexivity | ]. split; [ reflexivity | ].
  vm_compute. discriminate.
Qed.

(** Where the missing removal of duplicates does not show: for a
    fragment without [$ref] whose [type] is a list of two or more pairwise
    distinct kinds among integer, number, boolean, string, array, object
    and null, the resolver resolves each kind with that kind put in place
    of the list, and answers with the Union of the results in the order of
    the list; no two of the results are equal, so that the answer is also
    the Union with duplicates removed. *)
Lemma type_list_union_of_distinct_kinds (info : dict)
    (kinds variants : list string) :
  has_key info "$ref" = false ->
  get info "type" = JList (map JStr kinds) ->
  2 <= length kinds ->
  NoDup kinds ->
  forallb known_kind kinds = true ->
  mapM (fun k => get_python_type (JDict (dict_set info "type" (JStr k))))
    kinds = Ret variants ->
  get_python_type (JDict info) =
  Ret ("Union[" +:+ join ", " variants +:+ "]") /\
  NoDup variants /\
  get_python_type (JDict info) = Ret (spec_type_list_union variants).
Proof.
  intros Href Ht Hlen Hnd Hk Hv.
  assert (get_python_type (JDict info) =
          Ret ("Union[" +:+ join ", " variants +:+ "]")) as E.
  { rewrite (get_python_type_type_list info (map JStr kinds) Href Ht).
    - rewrite mapM_map, Hv. reflexivity.
    - rewrite length_map. lia. }
  assert (NoDup variants) as Hvnd.
  { apply (NoDup_fmap_1 annotation_kind).
    change (NoDup (map annotation_kind variants)).
    rewrite (variants_kinds info kinds variants Href Hk Hv). exact Hnd. }
  split; [ exact E | ]. split; [ exact Hvnd | ].
  rewrite E. unfold spec_type_list_union, unique_types.
  rewrite (unique_from_NoDup [] variants Hvnd). reflexivity.
Qed.

Lemma type_list_union_of_distinct_kinds_witness :
  get_python_type (JDict [("type", JList [JStr "string"; JStr "integer"])])
  = Ret "Union[str, int]" /\
  NoDup ["str"; "int"] /\
  get_python_type (JDict [("type", JList [JStr "string"; JStr "integer"])])
  = Ret (spec_type_list_union ["str"; "int"]).
Proof.
  apply (type_list_union_of_distinct_kinds
           [("type", JList [JStr "string"; JStr "integer"])]
           ["string"; "integer"] ["str"; "int"]).
  - reflexivity.
  - reflexivity.
  - simpl. lia.
  - repeat constructor; rewrite ?elem_of_cons, ?elem_of_nil;
      intuition discriminate.
  - reflexivity.
  - reflexivity.
Defined.

(** C5: the claim asks for the removal of duplicates, and the type-list
    branch misses the step that its sibling branches have.  For
    [{"type": ["string", "integer", "string"]}] lines 67-72 resolve every
    entry and keep every result: [Union[str, int, str]], where the Union
    with duplicates removed is [Union[str, int]].  The same three members
    under [anyOf] go through the removal of lines 165-169 and give
    [Union[str, int]], and as the properties of an object through that of
    lines 97-98; two entries that are no known kind and both resolve to
    [str] are kept twice as well. *)
Theorem type_list_keeps_what_its_siblings_remove :
  get_python_type
    (JDict [("type", JList [JStr "string"; JStr "integer"; JStr "string"])])
  = Ret "Union[str, int, str]" /\
  spec_type_list_union ["str"; "int"; "str"] = "Union[str, int]" /\
  get_python_type
    (JDict [("anyOf", JList [JDict [("type", JStr "string")];
                             JDict [("type", JStr "integer")];
                             JDict [("type", JStr "string")]])])
  = Ret "Union[str, int]" /\
  get_python_type
    (JDict [("type", JStr "object");
            ("properties",
             JDict [("a", JDict [("type", JStr "string")]);
                    ("b", JDict [("type", JStr "integer")]);
                    ("c", JDict [("type", JStr "string")])])])
  = Ret "dict[str, Union[str, int]]" /\
  get_python_type (JDict [("type", JList [JStr "text"; JStr "binary"])])
  = Ret "Union[str, str]".
Proof. repeat split; reflexivity. Qed.

(** C6, as amended: when the [allOf] branch is reached, that is for a
    fragment without [$ref], [enum], [anyOf] and [oneOf] whose [type] is
    none of integer, number, boolean, array, object, null, string, and
    [allOf] is a list: if every member is an object schema, the answer is
    the one for the single object schema whose properties are those of
    the members merged from first to last, a later member replacing the
    value of a name that an earlier one has; and if a member that follows
    object schemas is a mapping of another type, the answer is the open
    map [dict[str, Any]]. *)
Theorem all_of_merges_object_members (info : dict) (param_type : json)
    (members : list json) :
  has_key info "$ref" = false ->
  singular_type info = Some param_type ->
  settled_before_all_of param_type = false ->
  has_key info "enum" = false ->
  has_key info "anyOf" = false ->
  has_key info "oneOf" = false ->
  dict_get info "allOf" = Some (JList members) ->
  (forall propss,
     all_object_properties members = Some propss ->
     get_python_type (JDict info) =
     get_python_type
       (JDict [("type", JStr "object");
               ("properties", JDict (merge_properties propss))]) /\
     forall k,
       dict_get (merge_properties propss) k =
       dict_get (rev (concat propss)) k) /\
  (forall before sd after propss,
     members = before ++ JDict sd :: after ->
     all_object_properties before = Some propss ->
     is_str (get sd "type") "object" = false ->
     get_python_type (JDict info) = Ret "dict[str, Any]").
Proof.
  intros Href Hs Hk He Ha Ho Hall.
  rewrite (get_python_type_singular info param_type Href Hs).
  rewrite resolve_kind_all_of
    by (try assumption; unfold has_key; rewrite Hall; reflexivity).
  unfold get_or. rewrite Hall. unfold all_of_annotation.
  cbn [iter mbind outcome_bind bind]. split.
  - intros propss Hp. split.
    + rewrite (merge_all_of_objects members propss [] Hp).
      rewrite get_python_type_object. fold (merge_properties propss).
      cbn [mbind outcome_bind bind andb].
      destruct members as [ | m members ]; [ | reflexivity ].
      injection Hp as <-. reflexivity.
    + intros k. unfold merge_properties.
      assert (forall acc,
                dict_get (fold_left dict_update_items propss acc) k =
                match dict_get (rev (concat propss)) k with
                | Some v => Some v
                | None => dict_get acc k
                end) as Hfold.
      { clear. induction propss as [ | props propss IH ]; intros acc; simpl.
        - reflexivity.
        - rewrite IH, dict_get_update_items, rev_app_distr.
          clear. induction (rev (concat propss)) as [ | [k0 v0] l IHl ];
            simpl; [ reflexivity | ].
          destruct (String.eqb k0 k); [ reflexivity | exact IHl ]. }
      rewrite Hfold. destruct (dict_get (rev (concat propss)) k); reflexivity.
  - intros before sd after propss -> Hp Hsd.
    rewrite (merge_all_of_stops before after propss sd [] Hp Hsd).
    cbn [mbind outcome_bind bind andb].
    destruct (truthy _); reflexivity.
Qed.

Lemma all_of_merges_object_members_witness :
  get_python_type
    (JDict [("allOf",
             JList [JDict [("type", JStr "object");
                           ("properties",
                            JDict [("a", JDict [("type", JStr "integer")]);
                                   ("b", JDict [("type", JStr "string")])])];
                    JDict [("type", JStr "object");
                           ("properties",
                            JDict [("a", JDict [("type", JStr "boolean")])])]])])
  = get_python_type
      (JDict [("type", JStr "object");
              ("properties",
               JDict [("a", JDict [("type", JStr "boolean")]);
                      ("b", JDict [("type", JStr "string")])])]).
Proof.
  refine (proj1 (proj1
    (all_of_merges_object_members
       [("allOf",
         JList [JDict [("type", JStr "object");
                       ("properties",
                        JDict [("a", JDict [("type", JStr "integer")]);
                               ("b", JDict [("type", JStr "string")])])];
                JDict [("type", JStr "object");
                       ("properties",
                        JDict [("a", JDict [("type", JStr "boolean")])])]])]
       JNull _ eq_refl eq_refl eq_refl eq_refl eq_refl eq_refl eq_refl)
    [[("a", JDict [("type", JStr "integer")]);
      ("b", JDict [("type", JStr "string")])];
     [("a", JDict [("type", JStr "boolean")])]] eq_refl)).
Defined.

(** C6, as stated, fails: next to [type] "object" the [allOf] entry is
    not consulted, and the answer is the open map instead of the one for
    the merged properties. *)
Lemma object_type_hides_all_of :
  get_python_type
    (JDict [("type", JStr "object");
            ("allOf",
             JList [JDict [("type", JStr "object");
                           ("properties",
                            JDict [("a", JDict [("type", JStr "integer")])])]])])
  = Ret "dict[str, Any]" /\
  get_python_type
    (JDict [("type", JStr "object");
            ("properties", JDict [("a", JDict [("type", JStr "integer")])])])
  = Ret "dict[str, int]".
Proof. split; reflexivity. Qed.

End ResolverClaims.

(** ** The parameter loop and the generated function *)

Section SignatureFacts.



(** Every entry comes from a property. *)
Lemma build_params_source (required : json) (items : dict)
    (pds : list param_def) (pd : param_def) :
  build_params required items = Ret pds -> pd ∈ pds ->
  exists name info,
    (name, info) ∈ items /\ name <> "ctx" /\
    build_param required name info = Ret pd.
Proof.
  revert pds. induction items as [ | [n i] items IH ]; intros pds; simpl.
  - intros [= <-] H. inversion H.
  - intros H Hin. destruct (String.eqb n "ctx") eqn:E.
    + destruct (IH pds H Hin) as (name & info & H1 & H2 & H3).
      exists name, info. split; [ right; exact H1 | auto ].
    + apply bind_Ret_inv in H as (pd0 & Hpd & H).
      apply bind_Ret_inv in H as (pds' & Hpds & H). injection H as <-.
      apply elem_of_cons in Hin as [ -> | Hin ].
      * exists n, i. split; [ left | ]. split; [ | exact Hpd ].
        intros ->. discriminate.
      * destruct (IH pds' Hpds Hin) as (name & info & H1 & H2 & H3).
        exists name, info. split; [ right; exact H1 | auto ].
Qed.

Lemma build_param_inv (required : json) (name : string) (info : json)
    (pd : param_def) :
  build_param required name info = Ret pd ->
  exists param_type is_required,
    get_python_type info = Ret param_type /\
    name_in name required = Ret is_required /\
    if is_required then pd = ParamDef name param_type NoDefault
    else exists d, info = JDict d /\
                   pd = optional_def name param_type (get d "default").
Proof.
  unfold build_param. intros H.
  apply bind_Ret_inv in H as (param_type & Ht & H).
  apply bind_Ret_inv in H as (is_required & Hr & H).
  exists param_type, is_required. split; [ exact Ht | ].
  split; [ exact Hr | ].
  destruct is_required.
  - injection H as <-. reflexivity.
  - destruct info as [ | | | | | | d ]; try discriminate.
    injection H as <-. eauto.
Qed.

Lemma optional_def_fields (name param_type : string) (d : json) :
  pd_name (optional_def name param_type d) = name /\
  pd_required (optional_def name param_type d) = false.
Proof. destruct d; split; reflexivity. Qed.


End SignatureFacts.

Section StubFacts.






End StubFacts.

(** ** Settled claims about parameters and payloads *)

Section SignatureClaims.





(** C2, as amended: a generated parameter is required exactly when its
    name is in the schema's [required] list, whether or not the schema
    declares a default for it; a required parameter is generated without
    default, so that a default declared for a name in [required] is not
    used. *)
Theorem required_follows_required_list (schema : dict)
    (pds : list param_def) (pd : param_def) :
  build_signature schema = Ret pds ->
  pd ∈ pds ->
  name_in (pd_name pd) (get_or schema "required" (JList []))
  = Ret (pd_required pd) /\
  (pd_required pd = true -> pd_default pd = NoDefault).
Proof.
  unfold build_signature. intros Hb Hin.
  destruct (get_or schema "properties" (JDict [])) as [ | | | | | | props ];
    try discriminate.
  destruct (build_params_source _ _ _ _ Hb Hin) as (name & info & _ & _ & Hpd).
  apply build_param_inv in Hpd as (ty & r & _ & Hr & Hcase).
  destruct r.
  - subst pd. simpl. split; [ exact Hr | reflexivity ].
  - destruct Hcase as (d & _ & ->).
    destruct (optional_def_fields name ty (get d "default")) as [-> ->].
    split; [ exact Hr | discriminate ].
Qed.

Lemma required_follows_required_list_witness :
  name_in "n" (JList [JStr "n"]) = Ret true /\
  (true = true -> NoDefault = NoDefault).
Proof.
  apply (required_follows_required_list
           [("properties",
             JDict [("n", JDict [("type", JStr "integer");
                                 ("default", JInt 5)])]);
            ("required", JList [JStr "n"])]
           [ParamDef "n" "int" NoDefault]
           (ParamDef "n" "int" NoDefault)).
  - reflexivity.
  - left.
Defined.

(** C2, as stated, fails: a parameter that declares the default 5 and is
    named in [required] is generated as a required parameter, without
    default. *)
Lemma listed_parameter_with_default_is_required :
  build_signature
    [("properties",
      JDict [("n", JDict [("type", JStr "integer"); ("default", JInt 5)])]);
     ("required", JList [JStr "n"])]
  = Ret [ParamDef "n" "int" NoDefault] /\
  pd_required (ParamDef "n" "int" NoDefault) = true.
Proof. split; reflexivity. Qed.



End SignatureClaims.

(** ** Sessions and registration *)

Section ProxyFacts.

Variable e : env.

Lemma registered_app (tr tr' : list event) :
  registered (tr ++ tr') = registered tr ++ registered tr'.
Proof.
  induction tr as [ | ev tr IH ]; simpl; [ reflexivity | ].
  destruct ev; simpl; rewrite IH; reflexivity.
Qed.




Lemma discover_trace (w : world) :
  connect_fails e (next_session w) = None ->
  discover e w =
  (of_answer (list_tools e (next_session w)),
   World (S (next_session w))
     (trace w ++ [Open (next_session w); ListTools (next_session w);
                  Close (next_session w)])).
Proof.
  intros Hc. unfold discover, with_client. rewrite Hc. unfold log. simpl.
  rewrite <- !app_assoc. reflexivity.
Qed.

(** When the client cannot connect there is no session to close, and the
    failure is what the invocation raises. *)
Lemma invoke_connect_failure (s : stub) (kwargs payload : dict) (w : world)
    (err : pyerr) :
  call_args s kwargs = Ret payload ->
  calls_its_argument s = false ->
  rebinds_globals s = false ->
  connect_fails e (next_session w) = Some err ->
  invoke e s kwargs w = (Raise err, World (S (next_session w)) (trace w)).
Proof.
  intros Ha Hk Hr Hc. unfold invoke, with_client.
  rewrite Ha, Hk, Hr, Hc. reflexivity.
Qed.


(** Arguments that do not bind are rejected before any session exists. *)
Lemma invoke_rejected_arguments (s : stub) (kwargs : dict) (w : world)
    (err : pyerr) :
  call_args s kwargs = Raise err -> invoke e s kwargs w = (Raise err, w).
Proof. intros Ha. unfold invoke. rewrite Ha. reflexivity. Qed.

End ProxyFacts.

Section ProxyClaims.



(** A pass that fails half-way: [exec] refuses the definition generated
    for the second tool, the pass ends with that failure, and the first
    tool stays registered. *)
Example registration_keeps_what_was_registered :
  setup_proxy_tools
    {| python_accepts := fun t _ => negb (String.eqb (tool_name t) "second");
       host_rejects := fun _ _ => None;
       connect_fails := fun _ => None;
       list_tools :=
         fun _ => inl [Tool "first" "" []; Tool "second" "" [];
                       Tool "third" "" []];
       call_tool := fun _ _ payload => inl (JDict payload) |} initial
  = (Raise ExecError,
     World 1 [Open 0; ListTools 0; Close 0; Register (MkStub "first" [])]).
Proof. reflexivity. Qed.


(** C8: the claim holds of every generated function whose body finds the
    client class and the transport configuration under their names, and
    the code misses it where a parameter takes one of the names.  The
    tool [fetch] has one parameter, named [MCPClient]: its function is
    generated and registered like any other, and an invocation with the
    argument ["x"] raises [TypeError] at line 257, where the argument is
    called in place of the class.  No session is opened, nothing is
    forwarded, and the world is left as it was.  The same tool with its
    parameter named [url] opens a session, forwards the call and closes
    the session. *)
Theorem shadowed_client_opens_no_session :
  setup_proxy_tools
    (echo_env
       [Tool "fetch" "Fetch a page"
          [("properties", JDict [("MCPClient", JDict [("type", JStr "string")])]);
           ("required", JList [JStr "MCPClient"])]])
    initial
  = (Ret tt,
     World 1 [Open 0; ListTools 0; Close 0;
              Register (MkStub "fetch" [("MCPClient", None)])]) /\
  invoke
    (echo_env
       [Tool "fetch" "Fetch a page"
          [("properties", JDict [("MCPClient", JDict [("type", JStr "string")])]);
           ("required", JList [JStr "MCPClient"])]])
    (MkStub "fetch" [("MCPClient", None)])
    [("MCPClient", JStr "x")]
    (World 1 [Open 0; ListTools 0; Close 0;
              Register (MkStub "fetch" [("MCPClient", None)])])
  = (Raise TypeError,
     World 1 [Open 0; ListTools 0; Close 0;
              Register (MkStub "fetch" [("MCPClient", None)])]) /\
  invoke (echo_env []) (MkStub "fetch" [("url", None)])
    [("url", JStr "x")] (World 1 [])
  = (Ret (JDict [("url", JStr "x")]),
     World 2 [Open 1; CallTool 1 "fetch" [("url", JStr "x")]; Close 1]).
Proof. repeat split; reflexivity. Qed.

End ProxyClaims.

(** * Further properties of the code *)

(** ** What the resolver reads *)

Section Reading.

(** The chain looks at a fragment only through the keys it names; the
    entry [oneOf] is looked at only when [anyOf] is absent. *)
Lemma resolve_kind_agree (rec : json -> outcome string) (d1 d2 : dict)
    (param_type : json) :
  Forall (fun k => dict_get d1 k = dict_get d2 k)
    ["$ref"; "items"; "properties"; "additionalProperties"; "enum";
     "anyOf"; "allOf"] ->
  has_key d1 "anyOf" = true \/ dict_get d1 "oneOf" = dict_get d2 "oneOf" ->
  resolve_kind rec d1 param_type = resolve_kind rec d2 param_type.
Proof.
  intros H Hone.
  repeat (apply Forall_cons in H as [? H]).
  unfold resolve_kind, get_or, get, has_key in *. cbn [existsb].
  repeat match goal with
         | E : dict_get d1 ?k = dict_get d2 ?k |- _ =>
             rewrite E in *; clear E
         end.
  destruct Hone as [ Hany | Hone ]; [ | rewrite Hone; reflexivity ].
  destruct (dict_get d2 "anyOf"); [ | discriminate ].
  cbn [orb].
  repeat match goal with
         | |- (if ?c then _ else _) = (if ?c then _ else _) =>
             destruct c; try reflexivity
         end.
Qed.

Lemma agree_set_type (d1 d2 : dict) (t : json) (keys : list string) :
  Forall (fun k => dict_get d1 k = dict_get d2 k) keys ->
  Forall (fun k => dict_get (dict_set d1 "type" t) k =
                   dict_get (dict_set d2 "type" t) k) keys.
Proof.
  intros H. eapply Forall_impl; [ exact H | ].
  intros k Hk. cbn beta in *. rewrite !dict_get_set, Hk. reflexivity.
Qed.

Lemma get_python_type_agree (n : nat) (d1 d2 : dict) :
  size (get d1 "type") < n ->
  Forall (fun k => dict_get d1 k = dict_get d2 k)
    ["$ref"; "type"; "items"; "properties"; "additionalProperties"; "enum";
     "anyOf"; "allOf"] ->
  has_key d1 "anyOf" = true \/ dict_get d1 "oneOf" = dict_get d2 "oneOf" ->
  get_python_type (JDict d1) = get_python_type (JDict d2).
Proof.
  revert d1 d2. induction n as [ | n IH ]; intros d1 d2 Hn H Hone; [ lia | ].
  pose proof H as H'.
  apply Forall_cons in H' as [Href H']. apply Forall_cons in H' as [Ht H'].
  assert (forall pt, resolve_kind get_python_type d1 pt =
                     resolve_kind get_python_type d2 pt) as Hk.
  { intros pt. apply resolve_kind_agree; [ | exact Hone ].
    constructor; assumption. }
  rewrite (get_python_type_unfold (JDict d1)),
    (get_python_type_unfold (JDict d2)).
  unfold get_python_type_body, has_key, get in *. rewrite <- Href, <- Ht.
  destruct (dict_get d1 "$ref"); [ reflexivity | ].
  destruct (dict_get d1 "type") as [ pt | ] eqn:G; [ | apply Hk ].
  destruct pt as [ | | | | | ts | ]; try apply Hk.
  assert (mapM (fun t => get_python_type (JDict (dict_set d1 "type" t))) ts =
          mapM (fun t => get_python_type (JDict (dict_set d2 "type" t))) ts)
    as E.
  { apply mapM_ext, Forall_forall. intros t Hin. apply IH.
    - unfold get. rewrite dict_get_set. simpl String.eqb.
      apply size_elem in Hin. simpl in *. lia.
    - apply agree_set_type, H.
    - unfold has_key in *. rewrite !dict_get_set. simpl String.eqb.
      exact Hone. }
  destruct ts as [ | t [ | t' ts' ] ]; try apply Hk.
  - reflexivity.
  - rewrite E. reflexivity.
Qed.

(** X1: the answer depends on nothing but the values under the nine keys
    that the resolver reads: fragments that agree on them, whatever else
    they hold ([format], [description], [default], [title]) and in
    whatever order, resolve alike. *)
Theorem get_python_type_reads_nine_keys (d1 d2 : dict) :
  same_reading d1 d2 ->
  get_python_type (JDict d1) = get_python_type (JDict d2).
Proof.
  unfold same_reading, read_keys. intros H.
  apply (get_python_type_agree (S (size (get d1 "type")))); [ lia | | ].
  - repeat (apply Forall_cons in H as [? H]). repeat constructor; assumption.
  - right. repeat (apply Forall_cons in H as [? H]). assumption.
Qed.

Lemma get_python_type_reads_nine_keys_witness :
  get_python_type
    (JDict [("description", JStr "when"); ("format", JStr "date-time");
            ("type", JStr "string"); ("default", JStr "now")])
  = get_python_type (JDict [("type", JStr "string")]).
Proof.
  apply (get_python_type_reads_nine_keys
           [("description", JStr "when"); ("format", JStr "date-time");
            ("type", JStr "string"); ("default", JStr "now")]
           [("type", JStr "string")]).
  unfold same_reading, read_keys. repeat constructor.
Defined.

(** X2: next to [anyOf] the entry [oneOf] is never consulted: whatever is
    written under [oneOf], the answer is the one that [anyOf] gives. *)
Theorem any_of_hides_one_of (info : dict) (one_of : json) :
  has_key info "anyOf" = true ->
  get_python_type (JDict (dict_set info "oneOf" one_of)) =
  get_python_type (JDict info).
Proof.
  intros Hany.
  assert (forall k, String.eqb "oneOf" k = false ->
            dict_get (dict_set info "oneOf" one_of) k = dict_get info k) as Hk.
  { intros k E. rewrite dict_get_set, E. reflexivity. }
  apply (get_python_type_agree
           (S (size (get (dict_set info "oneOf" one_of) "type")))).
  - lia.
  - repeat constructor; apply Hk; reflexivity.
  - left. unfold has_key in *. rewrite Hk by reflexivity. exact Hany.
Qed.

Lemma any_of_hides_one_of_witness :
  get_python_type
    (JDict (dict_set [("anyOf", JList []);
                      ("oneOf", JList [JDict [("type", JStr "integer")]])]
              "oneOf" JNull))
  = get_python_type
      (JDict [("anyOf", JList []);
              ("oneOf", JList [JDict [("type", JStr "integer")]])]).
Proof.
  apply (any_of_hides_one_of
           [("anyOf", JList []);
            ("oneOf", JList [JDict [("type", JStr "integer")]])] JNull).
  reflexivity.
Defined.

(** X3: a [type] list with a single entry that is not itself a list is
    resolved as that entry alone. *)
Theorem single_type_list_is_unwrapped (info : dict) (t : json) :
  isinstance_list t = false ->
  get_python_type (JDict (dict_set info "type" (JList [t]))) =
  get_python_type (JDict (dict_set info "type" t)).
Proof.
  intros Ht.
  rewrite (get_python_type_unfold (JDict (dict_set info "type" (JList [t])))),
    (get_python_type_unfold (JDict (dict_set info "type" t))).
  unfold get_python_type_body, has_key, get. rewrite !dict_get_set.
  simpl String.eqb. cbn match.
  destruct (dict_get info "$ref"); [ reflexivity | ].
  assert (resolve_kind get_python_type (dict_set info "type" (JList [t])) t =
          resolve_kind get_python_type (dict_set info "type" t) t) as E.
  { apply resolve_kind_agree.
    - repeat constructor; rewrite !dict_get_set; reflexivity.
    - right. rewrite !dict_get_set. reflexivity. }
  destruct t; try discriminate; exact E.
Qed.

Lemma single_type_list_is_unwrapped_witness :
  get_python_type
    (JDict (dict_set [("type", JNull); ("enum", JList [JInt 1])] "type"
              (JList [JStr "integer"])))
  = get_python_type
      (JDict (dict_set [("type", JNull); ("enum", JList [JInt 1])] "type"
                (JStr "integer"))).
Proof.
  apply (single_type_list_is_unwrapped
           [("type", JNull); ("enum", JList [JInt 1])] (JStr "integer")).
  reflexivity.
Defined.

End Reading.

(** ** Unions, arrays and objects *)

Section Composition.

Lemma unique_from_elem_of (seen ts : list string) (t : string) :
  t ∈ unique_from seen ts <-> t ∈ seen \/ t ∈ ts.
Proof.
  revert seen. induction ts as [ | u ts IH ]; intros seen; simpl.
  - split; [ auto | ]. intros [ H | H ]; [ exact H | inversion H ].
  - rewrite IH. destruct (mem u seen) eqn:M.
    + apply mem_elem_of in M. rewrite elem_of_cons. split.
      * intros [ H | H ]; auto.
      * intros [ H | [ -> | H ] ]; auto.
    + rewrite elem_of_app, !elem_of_cons, elem_of_nil.
      split; intros H; intuition.
Qed.

Lemma unique_from_NoDup_seen (seen ts : list string) :
  NoDup seen -> NoDup (unique_from seen ts).
Proof.
  revert seen. induction ts as [ | u ts IH ]; intros seen H; simpl.
  - exact H.
  - apply IH. destruct (mem u seen) eqn:M; [ exact H | ].
    apply NoDup_app. split; [ exact H | ]. split.
    + intros x Hx Hu. apply list_elem_of_singleton in Hu. subst x.
      apply mem_elem_of in Hx. congruence.
    + apply NoDup_singleton.
Qed.

Lemma unique_from_sublist (seen ts : list string) :
  exists kept, unique_from seen ts = seen ++ kept /\ sublist kept ts.
Proof.
  revert seen. induction ts as [ | u ts IH ]; intros seen; simpl.
  - exists []. rewrite app_nil_r. split; [ reflexivity | constructor ].
  - destruct (mem u seen).
    + destruct (IH seen) as (kept & E & Hs).
      exists kept. split; [ exact E | apply sublist_cons, Hs ].
    + destruct (IH (seen ++ [u])) as (kept & E & Hs).
      exists (u :: kept). rewrite E, <- app_assoc.
      split; [ reflexivity | apply sublist_skip, Hs ].
Qed.

(** The two de-duplicating loops of the source are the same loop. *)
Lemma collect_value_types_unique (rec : json -> outcome string)
    (props : list json) (acc : list string) :
  collect_value_types rec props acc =
  (ts ← mapM rec props; Ret (unique_from acc ts)).
Proof.
  revert acc. induction props as [ | p props IH ]; intros acc; simpl.
  - reflexivity.
  - destruct (rec p) as [ t | | | ]; simpl; try reflexivity.
    rewrite IH. destruct (mapM rec props); reflexivity.
Qed.

Lemma resolve_kind_union (rec : json -> outcome string) (info : dict)
    (param_type : json) :
  settled_before_all_of param_type = false ->
  has_key info "enum" = false ->
  has_key info "anyOf" || has_key info "oneOf" = true ->
  resolve_kind rec info param_type =
  union_annotation rec
    (get_or info "anyOf" (get_or info "oneOf" (JList []))).
Proof.
  intros Hk He Hu. unfold settled_before_all_of in Hk.
  apply orb_false_elim in Hk as [Hk Hs].
  apply settled_before_enum_false in Hk as (H1 & H2 & H3 & H4 & H5 & H6).
  unfold resolve_kind. rewrite H1, H2, H3, H4, H5, H6, He, Hs, Hu.
  reflexivity.
Qed.

(** X4: when the [anyOf] / [oneOf] branch is reached with a non-empty list
    of members that all resolve, the answer is made of the members'
    annotations with every annotation kept once and none moved: a
    single annotation stands alone, several form a Union. *)
Theorem any_of_members_are_kept_once (info : dict) (param_type : json)
    (members : list json) (union_types : list string) :
  has_key info "$ref" = false ->
  singular_type info = Some param_type ->
  settled_before_all_of param_type = false ->
  has_key info "enum" = false ->
  has_key info "anyOf" || has_key info "oneOf" = true ->
  get_or info "anyOf" (get_or info "oneOf" (JList [])) = JList members ->
  members <> [] ->
  mapM get_python_type members = Ret union_types ->
  get_python_type (JDict info) =
  Ret (match unique_types union_types with
       | [t] => t
       | unique => "Union[" +:+ join ", " unique +:+ "]"
       end) /\
  NoDup (unique_types union_types) /\
  (forall t, t ∈ unique_types union_types <-> t ∈ union_types) /\
  sublist (unique_types union_types) union_types.
Proof.
  intros Href Hs Hk He Hu Hm Hne Hr.
  rewrite (get_python_type_singular info param_type Href Hs).
  rewrite (resolve_kind_union _ _ _ Hk He Hu), Hm.
  unfold union_annotation.
  destruct members as [ | m members ]; [ contradiction | ].
  cbn [truthy iter mbind outcome_bind bind]. rewrite Hr.
  cbn [mbind outcome_bind bind].
  split; [ | split; [ | split ] ].
  - destruct (unique_types union_types) as [ | t [ | t' l ] ]; reflexivity.
  - apply unique_from_NoDup_seen. constructor.
  - intros t. unfold unique_types. rewrite unique_from_elem_of.
    split; [ intros [ H | H ]; [ inversion H | exact H ] | auto ].
  - destruct (unique_from_sublist [] union_types) as (kept & E & Hsub).
    unfold unique_types. rewrite E. exact Hsub.
Qed.

Lemma any_of_members_are_kept_once_witness :
  get_python_type
    (JDict [("anyOf", JList [JDict [("type", JStr "integer")];
                             JDict [("type", JStr "string")];
                             JDict [("type", JStr "integer")]])])
  = Ret "Union[int, str]".
Proof.
  exact (proj1
    (any_of_members_are_kept_once
       [("anyOf", JList [JDict [("type", JStr "integer")];
                         JDict [("type", JStr "string")];
                         JDict [("type", JStr "integer")]])]
       JNull
       [JDict [("type", JStr "integer")]; JDict [("type", JStr "string")];
        JDict [("type", JStr "integer")]]
       ["int"; "str"; "int"]
       eq_refl eq_refl eq_refl eq_refl eq_refl eq_refl
       ltac:(discriminate) eq_refl)).
Defined.

Lemma get_python_type_array_of (items : json) :
  get_python_type (array_of items) =
  if truthy items then t ← get_python_type items; Ret (list_of t)
  else Ret "list[Any]".
Proof. unfold array_of. rewrite get_python_type_unfold. reflexivity. Qed.

(** X5: arrays nest as deep as the stack of the interpreter has room
    for, and no deeper.  With room to spare above the nesting, an array
    of arrays of ... of a schema resolves to the same number of
    [list[..]] around what the innermost schema resolves to in the frames
    that are left, and comes to nothing as that schema does; nested as
    deep as there are frames, or deeper, it raises [RecursionError]. *)
Theorem nested_arrays_nest (spare frames depth : nat) (innermost : json) :
  truthy innermost = true ->
  (depth + spare <= frames ->
   get_python_type_on_stack spare frames
     (Nat.iter depth array_of innermost) =
   (t ← get_python_type_on_stack spare (frames - depth) innermost;
    Ret (Nat.iter depth list_of t))) /\
  (frames <= depth ->
   get_python_type_on_stack spare frames
     (Nat.iter depth array_of innermost) =
   Raise RecursionError).
Proof.
  intros Ht. split.
  - apply nested_arrays_fit, Ht.
  - apply nested_arrays_overflow, Ht.
Qed.

Lemma nested_arrays_nest_witness :
  get_python_type_on_stack 2 6
    (Nat.iter 3 array_of (JDict [("type", JStr "integer")]))
  = Ret "list[list[list[int]]]" /\
  get_python_type_on_stack 2 3
    (Nat.iter 3 array_of (JDict [("type", JStr "integer")]))
  = Raise RecursionError.
Proof.
  split.
  - refine (proj1 (nested_arrays_nest 2 6 3
                     (JDict [("type", JStr "integer")]) eq_refl) _).
    lia.
  - refine (proj2 (nested_arrays_nest 2 3 3
                     (JDict [("type", JStr "integer")]) eq_refl) _).
    lia.
Defined.

Lemma unique_from_constant (t : string) (ts : list string) :
  Forall (eq t) ts -> unique_from [t] ts = [t].
Proof.
  induction 1 as [ | u ts <- _ IH ]; simpl; [ reflexivity | ].
  unfold mem. simpl. rewrite String.eqb_refl. exact IH.
Qed.

(** X6: an object schema with properties resolves to a mapping from
    strings to the value types of its properties, each type once; the
    names of the properties play no part, and properties that all have
    one type give a mapping to that type. *)
Theorem object_keeps_value_types_once (info props : dict)
    (value_types : list string) :
  has_key info "$ref" = false ->
  singular_type info = Some (JStr "object") ->
  dict_get info "properties" = Some (JDict props) ->
  props <> [] ->
  mapM get_python_type (map snd props) = Ret value_types ->
  get_python_type (JDict info) =
  Ret (dict_annotation (unique_types value_types)) /\
  NoDup (unique_types value_types) /\
  (forall t, t ∈ unique_types value_types <-> t ∈ value_types) /\
  (forall t, Forall (eq t) value_types ->
     get_python_type (JDict info) = Ret ("dict[str, " +:+ t +:+ "]")).
Proof.
  intros Href Hs Hp Hne Hr.
  assert (get_python_type (JDict info) =
          Ret (dict_annotation (unique_types value_types))) as E.
  { rewrite (get_python_type_singular info (JStr "object") Href Hs).
    unfold resolve_kind, get_or. cbn [is_str String.eqb Ascii.eqb Bool.eqb].
    rewrite Hp. destruct props as [ | p props ]; [ contradiction | ].
    cbn [truthy values mbind outcome_bind bind].
    rewrite collect_value_types_unique, Hr. reflexivity. }
  split; [ exact E | ]. split; [ | split ].
  - apply unique_from_NoDup_seen. constructor.
  - intros t. unfold unique_types. rewrite unique_from_elem_of.
    split; [ intros [ H | H ]; [ inversion H | exact H ] | auto ].
  - intros t Hall. rewrite E. destruct value_types as [ | u ts ].
    + destruct props; [ contradiction | ]. simpl in Hr.
      destruct (get_python_type _); try discriminate.
      destruct (mapM _ _); discriminate.
    + apply Forall_cons in Hall as [<- Hall].
      unfold unique_types. cbn [unique_from mem existsb app].
      rewrite (unique_from_constant t ts Hall). reflexivity.
Qed.

Lemma object_keeps_value_types_once_witness :
  get_python_type
    (JDict [("type", JStr "object");
            ("properties",
             JDict [("a", JDict [("type", JStr "integer")]);
                    ("b", JDict [("type", JStr "string")]);
                    ("c", JDict [("type", JStr "integer")])])])
  = Ret "dict[str, Union[int, str]]".
Proof.
  exact (proj1
    (object_keeps_value_types_once
       [("type", JStr "object");
        ("properties",
         JDict [("a", JDict [("type", JStr "integer")]);
                ("b", JDict [("type", JStr "string")]);
                ("c", JDict [("type", JStr "integer")])])]
       [("a", JDict [("type", JStr "integer")]);
        ("b", JDict [("type", JStr "string")]);
        ("c", JDict [("type", JStr "integer")])]
       ["int"; "str"; "int"]
       eq_refl eq_refl eq_refl ltac:(discriminate) eq_refl)).
Defined.

End Composition.

(** ** The vocabulary of the annotations *)

Section Heads.

Lemma mapM_Ret_source {A B} (h : A -> outcome B) (l : list A) (ys : list B)
    (y : B) :
  mapM h l = Ret ys -> y ∈ ys -> exists x, x ∈ l /\ h x = Ret y.
Proof.
  revert ys. induction l as [ | a l IH ]; intros ys; simpl.
  - intros [= <-] H. inversion H.
  - intros H Hy.
    apply bind_Ret_inv in H as (b & Hb & H).
    apply bind_Ret_inv in H as (bs & Hbs & H). injection H as <-.
    apply elem_of_cons in Hy as [ -> | Hy ].
    + exists a. split; [ left | exact Hb ].
    + destruct (IH bs Hbs Hy) as (x & Hx & E).
      exists x. split; [ right; exact Hx | exact E ].
Qed.

Lemma known_head_dict_annotation (value_types : list string) :
  known_head (dict_annotation value_types) = true.
Proof. destruct value_types as [ | t [ | t' l ] ]; reflexivity. Qed.

Lemma known_head_enum_annotation (enum_values : json) (r : string) :
  enum_annotation enum_values = Ret r -> known_head r = true.
Proof.
  unfold enum_annotation, literal_of_str.
  destruct (truthy enum_values); [ | intros [= <-]; reflexivity ].
  destruct (iter enum_values) as [ vs | | | ]; try discriminate.
  cbn [mbind outcome_bind bind].
  destruct (forallb isinstance_str vs).
  { destruct (mapM quoted vs); try discriminate.
    intros [= <-]. reflexivity. }
  destruct (forallb isinstance_int vs).
  { destruct (mapM str_of vs); try discriminate.
    intros [= <-]. reflexivity. }
  destruct (forallb _ vs).
  { destruct (mapM str_of vs); try discriminate.
    intros [= <-]. reflexivity. }
  intros [= <-]. reflexivity.
Qed.

Variable rec : json -> outcome string.
Hypothesis rec_headed : forall x r, rec x = Ret r -> known_head r = true.

Lemma known_head_union_annotation (schemas : json) (r : string) :
  union_annotation rec schemas = Ret r -> known_head r = true.
Proof.
  unfold union_annotation.
  destruct (truthy schemas); [ | intros [= <-]; reflexivity ].
  destruct (iter schemas) as [ members | | | ]; try discriminate.
  cbn [mbind outcome_bind bind].
  destruct (mapM rec members) as [ union_types | | | ] eqn:E;
    try discriminate.
  cbn [mbind outcome_bind bind].
  destruct (unique_types union_types) as [ | t [ | t' l ] ] eqn:U;
    intros [= <-]; try reflexivity.
  assert (t ∈ union_types) as Hin.
  { destruct (proj1 (unique_from_elem_of [] union_types t)) as [ H | H ].
    - fold (unique_types union_types). rewrite U. left.
    - inversion H.
    - exact H. }
  destruct (mapM_Ret_source _ _ _ _ E Hin) as (x & _ & Hx).
  exact (rec_headed x t Hx).
Qed.

Lemma known_head_all_of_annotation (all_schemas : json) (r : string) :
  all_of_annotation rec all_schemas = Ret r -> known_head r = true.
Proof.
  unfold all_of_annotation.
  destruct (truthy all_schemas); [ | intros [= <-]; reflexivity ].
  destruct (iter all_schemas) as [ members | | | ]; try discriminate.
  cbn [mbind outcome_bind bind].
  destruct (merge_all_of members []) as [ [ao props] | | | ];
    try discriminate.
  cbn [mbind outcome_bind bind].
  destruct (ao && truthy (JDict props)); [ | intros [= <-]; reflexivity ].
  destruct (collect_value_types rec (map snd props) []); try discriminate.
  intros [= <-]. apply known_head_dict_annotation.
Qed.

Lemma known_head_resolve_kind (info : dict) (param_type : json) (r : string) :
  resolve_kind rec info param_type = Ret r -> known_head r = true.
Proof.
  unfold resolve_kind.
  repeat match goal with
         | |- (if is_str param_type ?s then _ else _) = _ -> _ =>
             destruct (is_str param_type s);
             [ try (intros [= <-]; reflexivity) | ]
         end.
  - destruct (truthy _); [ | intros [= <-]; reflexivity ].
    destruct (rec _); try discriminate. intros [= <-]. reflexivity.
  - destruct (truthy (get_or info "properties" (JDict []))).
    + destruct (values _); try discriminate. cbn [mbind outcome_bind bind].
      destruct (collect_value_types _ _ _); try discriminate.
      intros [= <-]. apply known_head_dict_annotation.
    + destruct (_ && _); [ | intros [= <-]; reflexivity ].
      destruct (rec _); try discriminate. intros [= <-]. reflexivity.
  - destruct (has_key info "enum"); [ apply known_head_enum_annotation | ].
    destruct (is_str param_type "string"); [ intros [= <-]; reflexivity | ].
    destruct (_ || _); [ apply known_head_union_annotation | ].
    destruct (has_key info "allOf"); [ apply known_head_all_of_annotation | ].
    destruct (_ && _); intros [= <-]; reflexivity.
Qed.

Lemma known_head_body (v : json) (r : string) :
  get_python_type_body rec v = Ret r -> known_head r = true.
Proof.
  destruct v as [ | | | | s | l | info ]; simpl; try discriminate.
  - destruct (contains _ _); [ intros [= <-]; reflexivity | discriminate ].
  - destruct (existsb _ _); [ intros [= <-]; reflexivity | discriminate ].
  - destruct (has_key _ _); [ intros [= <-]; reflexivity | ].
    destruct (get info "type") as [ | | | | | ts | ];
      try apply known_head_resolve_kind.
    destruct ts as [ | t [ | t' ts' ] ]; try apply known_head_resolve_kind.
    + intros [= <-]. reflexivity.
    + destruct (mapM _ _); try discriminate. intros [= <-]. reflexivity.
Qed.

End Heads.

Section ResolverInvariants.

(** X7: whatever the fragment, an annotation that the resolver returns is
    [int], [float], [bool], [str], [Any] or [type(None)], or starts with
    [list[], [dict[str, ], [Literal[] or [Union[]: it is written with the
    built-in names and the names of [exec_globals] only, and it is never
    empty. *)
Theorem annotations_use_known_names (v : json) (r : string) :
  get_python_type v = Ret r -> known_head r = true.
Proof.
  revert r. induction v as [ v IH ] using (induction_ltof1 _ size).
  unfold ltof in IH. intros r.
  rewrite get_python_type_unfold.
  rewrite (get_python_type_body_ext get_python_type
             (fun x => if decide (size x < size v) then get_python_type x
                       else Ret "Any") v).
  - apply known_head_body. intros x r'.
    destruct (decide _); [ apply IH; assumption | ].
    intros [= <-]. reflexivity.
  - intros x Hx. destruct (decide _); [ reflexivity | lia ].
Qed.

Lemma annotations_use_known_names_witness :
  known_head "dict[str, Union[int, str]]" = true.
Proof.
  exact (annotations_use_known_names
    (JDict [("type", JStr "object");
            ("properties",
             JDict [("a", JDict [("type", JStr "integer")]);
                    ("b", JDict [("type", JStr "string")])])])
    "dict[str, Union[int, str]]" eq_refl).
Defined.

(** X8: the recursion of the resolver ends on every JSON value: a budget
    of the size of the value is never used up, and any larger budget
    gives the same answer. *)
Theorem size_is_budget_enough (fuel : nat) (v : json) :
  size v <= fuel ->
  get_python_type_fuel fuel v = get_python_type v /\
  get_python_type_fuel fuel v <> OutOfFuel.
Proof.
  intros H. rewrite (get_python_type_fuel_stable fuel v H).
  split; [ reflexivity | apply get_python_type_terminates ].
Qed.

Lemma size_is_budget_enough_witness :
  get_python_type_fuel 40
    (JDict [("type", JStr "array");
            ("items", JDict [("type", JList [JStr "string"; JStr "null"])])])
  = get_python_type
      (JDict [("type", JStr "array");
              ("items", JDict [("type", JList [JStr "string"; JStr "null"])])])
  /\
  get_python_type_fuel 40
    (JDict [("type", JStr "array");
            ("items", JDict [("type", JList [JStr "string"; JStr "null"])])])
  <> OutOfFuel.
Proof.
  apply (size_is_budget_enough 40
    (JDict [("type", JStr "array");
            ("items", JDict [("type", JList [JStr "string"; JStr "null"])])])).
  simpl. lia.
Defined.

End ResolverInvariants.

(** ** The generated signature *)

Section SignatureProperties.

Lemma build_param_name (required : json) (name : string) (info : json)
    (pd : param_def) :
  build_param required name info = Ret pd -> pd_name pd = name.
Proof.
  intros H. apply build_param_inv in H as (ty & r & _ & _ & Hcase).
  destruct r; [ subst pd; reflexivity | ].
  destruct Hcase as (d & _ & ->). apply optional_def_fields.
Qed.




(** X10: the annotation of a generated parameter is what the resolver
    answers for the property; it is wrapped in [Optional[..]] exactly
    when the parameter gets the default [None], so that a parameter with
    a declared default keeps the bare type. *)
Theorem annotation_is_resolved_type (schema : dict) (pds : list param_def)
    (pd : param_def) :
  build_signature schema = Ret pds ->
  pd ∈ pds ->
  exists properties info param_type,
    get_or schema "properties" (JDict []) = JDict properties /\
    (pd_name pd, info) ∈ properties /\
    get_python_type info = Ret param_type /\
    pd_annotation pd =
    match pd_default pd with
    | NoneDefault => "Optional[" +:+ param_type +:+ "]"
    | _ => param_type
    end.
Proof.
  unfold build_signature. intros Hb Hin.
  destruct (get_or schema "properties" (JDict [])) as [ | | | | | | props ];
    try discriminate.
  destruct (build_params_source _ _ _ _ Hb Hin)
    as (name & info & Hp & _ & Hpd).
  pose proof (build_param_name _ _ _ _ Hpd) as Hn.
  apply build_param_inv in Hpd as (ty & r & Ht & _ & Hcase).
  exists props, info, ty. split; [ reflexivity | ].
  rewrite Hn. split; [ exact Hp | ]. split; [ exact Ht | ].
  destruct r; [ subst pd; reflexivity | ].
  destruct Hcase as (d & _ & ->). destruct (get d "default"); reflexivity.
Qed.

Lemma annotation_is_resolved_type_witness :
  exists properties info param_type,
    get_or
      [("properties",
        JDict [("n", JDict [("type", JStr "integer"); ("default", JInt 5)]);
               ("q", JDict [("type", JStr "string")])])]
      "properties" (JDict []) = JDict properties /\
    (pd_name (ParamDef "q" "Optional[str]" NoneDefault), info) ∈ properties /\
    get_python_type info = Ret param_type /\
    pd_annotation (ParamDef "q" "Optional[str]" NoneDefault) =
    match pd_default (ParamDef "q" "Optional[str]" NoneDefault) with
    | NoneDefault => "Optional[" +:+ param_type +:+ "]"
    | _ => param_type
    end.
Proof.
  apply (annotation_is_resolved_type
           [("properties",
             JDict [("n", JDict [("type", JStr "integer");
                                 ("default", JInt 5)]);
                    ("q", JDict [("type", JStr "string")])])]
           [ParamDef "n" "int" (FormatDefault (JInt 5));
            ParamDef "q" "Optional[str]" NoneDefault]).
  - reflexivity.
  - right. left.
Defined.

Lemma build_params_stuck (required : json) (items : dict) (name : string)
    (info : json) :
  (forall n, ~ returns (name_in n required)) ->
  (name, info) ∈ items -> name <> "ctx" ->
  ~ returns (build_params required items).
Proof.
  intros Hreq. induction items as [ | [n i] items IH ]; simpl.
  - intros H. inversion H.
  - intros Hin Hctx [pds H]. destruct (String.eqb n "ctx") eqn:E.
    + apply elem_of_cons in Hin as [ Heq | Hin ].
      * injection Heq as -> ->. apply String.eqb_eq in E. contradiction.
      * apply IH; [ assumption | assumption | exists pds; exact H ].
    + apply bind_Ret_inv in H as (pd & Hpd & _).
      apply build_param_inv in Hpd as (ty & r & _ & Hr & _).
      apply (Hreq n). exists r. exact Hr.
Qed.

(** X11: a [required] entry that cannot be searched ([null], a number, a
    boolean) makes the construction of the signature fail as soon as the
    schema has a property other than [ctx]: no parameter list comes
    back. *)
Theorem unsearchable_required_fails (schema properties : dict)
    (name : string) (info : json) :
  get_or schema "properties" (JDict []) = JDict properties ->
  (name, info) ∈ properties ->
  name <> "ctx" ->
  iter (get_or schema "required" (JList [])) = Raise TypeError ->
  ~ returns (build_signature schema).
Proof.
  intros Hp Hin Hctx Hreq. unfold build_signature. rewrite Hp.
  eapply build_params_stuck; [ | exact Hin | exact Hctx ].
  intros n [b Hb]. destruct (get_or schema "required" (JList []));
    simpl in *; discriminate.
Qed.

Lemma unsearchable_required_fails_witness :
  iter JNull = Raise TypeError /\
  ~ returns
      (build_signature
         [("properties", JDict [("a", JDict [("type", JStr "integer")])]);
          ("required", JNull)]).
Proof.
  split; [ reflexivity | ].
  apply (unsearchable_required_fails
           [("properties", JDict [("a", JDict [("type", JStr "integer")])]);
            ("required", JNull)]
           [("a", JDict [("type", JStr "integer")])]
           "a" (JDict [("type", JStr "integer")])).
  - reflexivity.
  - left.
  - discriminate.
  - reflexivity.
Defined.

End SignatureProperties.

(** ** The payload of an invocation *)

Section PayloadProperties.
















End PayloadProperties.

(** ** Sessions, registrations and calls *)

Section Runs.

Variable e : env.







End Runs.

Section RunProperties.

(** X17: when discovery fails, because the client cannot connect or
    because listing the tools raises, [setup_proxy_tools] raises that
    very error, nothing is registered, and a session that was opened is
    closed. *)
Theorem failed_discovery_registers_nothing (e : env) (w : world)
    (err : pyerr) :
  connect_fails e (next_session w) = Some err \/
  (connect_fails e (next_session w) = None /\
   list_tools e (next_session w) = inr err) ->
  setup_proxy_tools e w =
  (Raise err,
   World (S (next_session w))
     (trace w ++
      if connects e (next_session w)
      then [Open (next_session w); ListTools (next_session w);
            Close (next_session w)]
      else [])) /\
  registered (trace (snd (setup_proxy_tools e w))) = registered (trace w).
Proof.
  intros [ Hc | [Hc Hl] ].
  - assert (setup_proxy_tools e w =
            (Raise err, World (S (next_session w)) (trace w))) as E.
    { unfold setup_proxy_tools, discover, with_client. rewrite Hc.
      reflexivity. }
    rewrite E. unfold connects. rewrite Hc, app_nil_r. split; reflexivity.
  - assert (setup_proxy_tools e w =
            (Raise err,
             World (S (next_session w))
               (trace w ++ [Open (next_session w); ListTools (next_session w);
                            Close (next_session w)]))) as E.
    { unfold setup_proxy_tools. rewrite (discover_trace e w Hc), Hl.
      reflexivity. }
    rewrite E. unfold connects. rewrite Hc. split; [ reflexivity | ].
    simpl. rewrite registered_app. simpl. apply app_nil_r.
Qed.

Lemma failed_discovery_registers_nothing_witness :
  setup_proxy_tools
    {| python_accepts := fun _ _ => true;
       host_rejects := fun _ _ => None;
       connect_fails := fun _ => None;
       list_tools := fun _ => inr (TransportError "closed");
       call_tool := fun _ _ payload => inl (JDict payload) |} initial
  = (Raise (TransportError "closed"),
     World 1 [Open 0; ListTools 0; Close 0]).
Proof.
  exact (proj1
    (failed_discovery_registers_nothing
       {| python_accepts := fun _ _ => true;
          host_rejects := fun _ _ => None;
          connect_fails := fun _ => None;
          list_tools := fun _ => inr (TransportError "closed");
          call_tool := fun _ _ payload => inl (JDict payload) |} initial
       (TransportError "closed") (or_intror (conj eq_refl eq_refl)))).
Defined.








End RunProperties.

(** ** [main] of the proxy *)

Section MainProperties.

Lemma make_transport_config_cons (first : string) (rest : list string) :
  make_transport_config (first :: rest) = Some (TransportConfig first rest).
Proof.
  unfold make_transport_config. simpl length. destruct rest; reflexivity.
Qed.

(** X20: [main] guards the index.  [command_args[0]] never raises under
    [main]: with an empty command, after the removal of a leading [--],
    [main] exits with status 1 before anything is set up, and only
    then. *)
Theorem main_guards_the_command (e : env) (mode : string) (port : Z)
    (host : string) (unknown : list string) (w : world) :
  (forall w', main e mode port host unknown w <> IndexErrorRaised w') /\
  (forall status w',
     main e mode port host unknown w = Exit status w' ->
     status = 1 /\ w' = w) /\
  (strip_separator unknown = [] <->
   main e mode port host unknown w = Exit 1 w) /\
  (make_transport_config (strip_separator unknown) = None <->
   strip_separator unknown = []).
Proof.
  unfold main. destruct (strip_separator unknown) as [ | first rest ].
  - repeat split; try discriminate; congruence.
  - rewrite make_transport_config_cons.
    destruct (setup_proxy_tools e w) as [ [ [] | err | | ] w1 ];
      repeat split; try discriminate;
      destruct (String.eqb mode "sse"), (String.eqb mode "http");
      discriminate.
Qed.

(** X21: when [main] gets to run the server, set-up has returned normally
    in the world the server starts from, the transport configuration is
    the command line after the separator, cut into its first word and
    the rest, port and host are the parsed ones, and for the two modes
    that the parser admits the transport is the mode. *)
Theorem main_runs_what_was_set_up (e : env) (mode : string) (port : Z)
    (host : string) (unknown : list string) (w : world)
    (transport : option string) (p : Z) (h : string)
    (config : transport_config) (w' : world) :
  main e mode port host unknown w = Run transport p h config w' ->
  setup_proxy_tools e w = (Ret tt, w') /\
  command config :: args config = strip_separator unknown /\
  p = port /\ h = host /\
  (mem mode ["sse"; "http"] = true -> transport = Some mode).
Proof.
  unfold main. destruct (strip_separator unknown) as [ | first rest ];
    [ discriminate | ].
  rewrite make_transport_config_cons.
  destruct (setup_proxy_tools e w) as [ [ [] | err | | ] w1 ];
    try discriminate.
  destruct (String.eqb mode "sse") eqn:E1;
    [ | destruct (String.eqb mode "http") eqn:E2 ];
    intros [= <- <- <- <- <-]; repeat split.
  - apply String.eqb_eq in E1. congruence.
  - apply String.eqb_eq in E2. congruence.
  - unfold mem. simpl. rewrite E1, E2. discriminate.
Qed.

Lemma main_runs_what_was_set_up_witness :
  setup_proxy_tools (echo_env []) initial =
    (Ret tt, World 1 [Open 0; ListTools 0; Close 0]) /\
  command (TransportConfig "python" ["mcp_server.py"])
    :: args (TransportConfig "python" ["mcp_server.py"]) =
    strip_separator ["--"; "python"; "mcp_server.py"] /\
  8080%Z = 8080%Z /\ "localhost" = "localhost" /\
  (mem "sse" ["sse"; "http"] = true -> Some "sse" = Some "sse").
Proof.
  apply (main_runs_what_was_set_up (echo_env []) "sse" 8080 "localhost"
           ["--"; "python"; "mcp_server.py"] initial).
  reflexivity.
Defined.

End MainProperties.

(** ** Text *)

Section TextFacts.

Lemma append_nil (b : string) : "" +:+ b = b.
Proof. reflexivity. Qed.

Lemma append_cons (x : ascii) (a b : string) :
  String x a +:+ b = String x (a +:+ b).
Proof. reflexivity. Qed.

Lemma append_assoc (a b c : string) : (a +:+ b) +:+ c = a +:+ (b +:+ c).
Proof.
  induction a as [ | x a IH ]; rewrite ?append_nil, ?append_cons;
    [ reflexivity | rewrite IH; reflexivity ].
Qed.

(** A tail of stripped characters goes away. *)
Lemma rstrip_tail (chars s tail : string) :
  all_in chars tail = true -> rstrip chars (s +:+ tail) = rstrip chars s.
Proof.
  intros Ht. induction s as [ | c s IH ]; rewrite ?append_nil, ?append_cons.
  - induction tail as [ | c tail IH ]; simpl in *; [ reflexivity | ].
    apply andb_true_iff in Ht as [Hc Ht]. rewrite (IH Ht), Hc. reflexivity.
  - simpl. rewrite IH. reflexivity.
Qed.

(** What is in front of a text that survives is untouched. *)
Lemma rstrip_keep (chars a b : string) :
  rstrip chars b <> "" -> rstrip chars (a +:+ b) = a +:+ rstrip chars b.
Proof.
  intros Hb. induction a as [ | c a IH ]; rewrite ?append_nil, ?append_cons;
    [ reflexivity | ].
  simpl. rewrite IH. destruct (a +:+ rstrip chars b) eqn:E; [ | reflexivity ].
  destruct a; rewrite ?append_nil, ?append_cons in E;
    [ contradiction | discriminate ].
Qed.

(** [rstrip] removes a tail of stripped characters, and nothing else. *)
Lemma rstrip_split (chars s : string) :
  exists tail, s = rstrip chars s +:+ tail /\ all_in chars tail = true.
Proof.
  induction s as [ | c s (tail & Hs & Ht) ]; simpl.
  - exists "". split; reflexivity.
  - destruct (rstrip chars s) as [ | k kept ] eqn:E.
    + rewrite append_nil in Hs. destruct (in_chars c chars) eqn:Hc.
      * exists (String c s). split; [ reflexivity | ]. simpl.
        rewrite Hc, Hs. exact Ht.
      * exists tail. rewrite append_cons, append_nil.
        split; [ f_equal; exact Hs | exact Ht ].
    + exists tail. rewrite append_cons.
      split; [ f_equal; exact Hs | exact Ht ].
Qed.

(** What [rstrip] leaves does not end with the stripped character. *)
Lemma rstrip_ends (c : ascii) (s : string) :
  ends_with (rstrip (String c "") s) (String c "") = false.
Proof.
  induction s as [ | x s IH ]; simpl; [ reflexivity | ].
  destruct (rstrip (String c "") s) as [ | k kept ] eqn:E.
  - rewrite orb_false_r. destruct (Ascii.eqb x c) eqn:Hx; simpl;
      [ reflexivity | ].
    rewrite Hx. reflexivity.
  - change (ends_with (String x (String k kept)) (String c ""))
      with (String.eqb (String x (String k kept)) (String c "")
            || ends_with (String k kept) (String c "")).
    rewrite IH, orb_false_r. simpl. destruct (Ascii.eqb x c); reflexivity.
Qed.

Lemma ends_with_refl (s : string) : ends_with s s = true.
Proof.
  destruct s; simpl; rewrite ?Ascii.eqb_refl, ?String.eqb_refl; reflexivity.
Qed.

Lemma ends_with_append (s suffix : string) :
  ends_with (s +:+ suffix) suffix = true.
Proof.
  induction s as [ | c s IH ]; rewrite ?append_nil, ?append_cons;
    [ apply ends_with_refl | ].
  simpl. rewrite IH. apply orb_true_r.
Qed.

Lemma contains_char (c : ascii) (s : string) :
  contains (String c "") s = in_chars c s.
Proof.
  induction s as [ | x s IH ]; simpl; [ reflexivity | ].
  rewrite IH, andb_true_r. reflexivity.
Qed.

Lemma split_once_None (sep : ascii) (a : string) :
  split_once sep a = None <-> in_chars sep a = false.
Proof.
  induction a as [ | c a IH ]; simpl; [ tauto | ].
  rewrite (Ascii.eqb_sym sep c). destruct (Ascii.eqb c sep); simpl.
  - split; discriminate.
  - rewrite <- IH. destruct (split_once sep a) as [ [before after] | ];
      split; congruence.
Qed.

(** [a.split(sep, 1)] cuts at the first separator: the two parts with the
    separator in between are [a], and the first part holds none. *)
Lemma split_once_Some (sep : ascii) (a key value : string) :
  split_once sep a = Some (key, value) ->
  a = key +:+ String sep value /\ in_chars sep key = false.
Proof.
  revert key. induction a as [ | c a IH ]; intros key; simpl;
    [ discriminate | ].
  destruct (Ascii.eqb c sep) eqn:E.
  - intros [= <- <-]. apply Ascii.eqb_eq in E. subst. split; reflexivity.
  - destruct (split_once sep a) as [ [before after] | ]; [ | discriminate ].
    intros [= <- <-]. destruct (IH before eq_refl) as [-> Hk].
    split; [ reflexivity | ]. simpl. rewrite Ascii.eqb_sym, E. exact Hk.
Qed.

End TextFacts.

(** ** The text of the forwarded dictionary *)

Section CallArgsTextProperties.

Lemma rstrip_call_arg_entry (param : string) :
  param <> "" -> rstrip ", " param = param ->
  rstrip ", " (call_arg_entry param) = call_arg_entry param.
Proof.
  intros Hne Hp. unfold call_arg_entry.
  assert (rstrip ", " param <> "") as Hk by (rewrite Hp; exact Hne).
  rewrite rstrip_keep.
  - rewrite rstrip_keep, Hp; [ reflexivity | exact Hk ].
  - rewrite rstrip_keep, Hp; [ | exact Hk ]. discriminate.
Qed.

Lemma call_arg_entry_not_empty (param : string) : call_arg_entry param <> "".
Proof. discriminate. Qed.

Lemma rstrip_entries (names : list string) (text : string) :
  names <> [] ->
  Forall (fun param => param <> "" /\ rstrip ", " param = param) names ->
  rstrip ", "
    (fold_left (fun text param => text +:+ call_arg_entry param +:+ ", ")
       names text) =
  text +:+ join ", " (map call_arg_entry names).
Proof.
  intros Hne H. revert text.
  induction H as [ | p names [Hp1 Hp2] Hrest IH ]; intros text;
    [ contradiction | ].
  destruct names as [ | q names ].
  - simpl. rewrite rstrip_keep.
    + rewrite (rstrip_tail ", " _ ", " eq_refl),
        (rstrip_call_arg_entry p Hp1 Hp2). reflexivity.
    + rewrite (rstrip_tail ", " _ ", " eq_refl),
        (rstrip_call_arg_entry p Hp1 Hp2). apply call_arg_entry_not_empty.
  - change (fold_left _ (p :: q :: names) text)
      with (fold_left
              (fun text param => text +:+ call_arg_entry param +:+ ", ")
              (q :: names) (text +:+ call_arg_entry p +:+ ", ")).
    rewrite IH by discriminate.
    change (join ", " (map call_arg_entry (p :: q :: names)))
      with (call_arg_entry p +:+ ", "
            +:+ join ", " (map call_arg_entry (q :: names))).
    rewrite !append_assoc. reflexivity.
Qed.

(** X22: for parameter names that are not empty and do not end in a comma
    or a blank, as Python identifiers are, the text of the forwarded
    dictionary is the entries ["name": name] separated by [", "] between
    braces: stripping removes the last separator and nothing of an
    entry; for no parameter at all it is the empty dictionary. *)
Theorem call_args_str_is_a_dict_literal (names : list string) :
  Forall (fun param => param <> "" /\ rstrip ", " param = param) names ->
  call_args_str names =
  "{" +:+ join ", " (map call_arg_entry names) +:+ "}".
Proof.
  intros H. unfold call_args_str. destruct names as [ | p names ].
  - reflexivity.
  - rewrite rstrip_entries by (discriminate || exact H).
    rewrite append_assoc. reflexivity.
Qed.

Lemma call_args_str_is_a_dict_literal_witness :
  call_args_str ["a"; "b"] =
  "{" +:+ join ", " (map call_arg_entry ["a"; "b"]) +:+ "}".
Proof.
  apply (call_args_str_is_a_dict_literal ["a"; "b"]).
  repeat constructor; discriminate.
Defined.

End CallArgsTextProperties.

(** ** The demonstration server *)

Section McpServerProperties.

Lemma fibonacci_step (k : nat) :
  let pair := Nat.iter k (fun ab : Z * Z => (snd ab, (fst ab + snd ab)%Z))
                (0%Z, 1%Z) in
  Nat.iter (S k) (fun ab : Z * Z => (snd ab, (fst ab + snd ab)%Z))
    (0%Z, 1%Z) = (snd pair, (fst pair + snd pair)%Z).
Proof. reflexivity. Qed.

(** X23: from 2 on, [calculate_fibonacci] satisfies the recurrence of the
    Fibonacci numbers: what it returns is the sum of what it returns for
    the two arguments before. *)
Theorem calculate_fibonacci_recurrence (n : Z) :
  (2 <= n)%Z ->
  calculate_fibonacci n =
  (calculate_fibonacci (n - 1) + calculate_fibonacci (n - 2))%Z.
Proof.
  intros Hn. unfold calculate_fibonacci.
  destruct (Z.leb_spec n 1) as [ | _ ]; [ lia | ].
  replace (Z.to_nat (n - 1)) with (S (Z.to_nat (n - 2))) by lia.
  rewrite fibonacci_step. cbv zeta. cbn [snd].
  destruct (Z.leb_spec (n - 1) 1) as [ H1 | H1 ].
  - assert (n = 2%Z) as -> by lia. reflexivity.
  - replace (n - 1 - 1)%Z with (n - 2)%Z by lia.
    destruct (Z.leb_spec (n - 2) 1) as [ H2 | H2 ].
    + assert (n = 3%Z) as -> by lia. reflexivity.
    + replace (Z.to_nat (n - 2)) with (S (Z.to_nat (n - 2 - 1))) by lia.
      rewrite fibonacci_step. cbv zeta. cbn [fst snd]. lia.
Qed.

Lemma calculate_fibonacci_recurrence_witness :
  calculate_fibonacci 10 =
  (calculate_fibonacci (10 - 1) + calculate_fibonacci (10 - 2))%Z.
Proof. apply (calculate_fibonacci_recurrence 10). lia. Defined.

End McpServerProperties.

(** ** The command line client *)

Section McpCliProperties.

Lemma get_or_set (d : dict) (k : string) (v dflt : json) :
  get_or (dict_set d k v) k dflt = v.
Proof. unfold get_or. rewrite dict_get_set, String.eqb_refl. reflexivity. Qed.

(** X24: with the transport [sse], whatever URL and port are given, the
    configuration that [cli] builds makes [_get_server_params] answer
    SSE parameters whose URL ends in [/sse], with the timeout of the
    command line and ten times that as the read timeout. *)
Theorem sse_url_ends_in_sse (shlex_split : string -> outcome (list string))
    (server_script server_args server_url : string)
    (server_port timeout : Z) :
  exists url,
    (server_config ← cli shlex_split "sse" server_script server_args
                       server_url server_port timeout;
     _get_server_params "sse" server_config) =
    Ret (SseServerParams (JStr url) (JInt timeout) (JInt (timeout * 10))) /\
    ends_with url "/sse" = true.
Proof.
  unfold cli. change (String.eqb "sse" "stdio") with false.
  change (String.eqb "sse" "sse") with true. cbv iota.
  set (url := if String.eqb server_url "http://localhost:8000"
                 && negb (server_port =? 8000)%Z
              then "http://localhost:" +:+ pretty server_port
              else server_url).
  exists (if negb (ends_with url "/sse") then url +:+ "/sse" else url).
  split.
  - cbn [mbind outcome_bind bind]. unfold _get_server_params.
    change (String.eqb "sse" "docker") with false.
    change (String.eqb "sse" "stdio") with false.
    change (String.eqb "sse" "sse") with true. cbv iota.
    rewrite get_or_set. reflexivity.
  - destruct (ends_with url "/sse") eqn:E; simpl negb; cbv iota;
      [ exact E | apply ends_with_append ].
Qed.

(** X25: with the transport [http], the URL that [_get_server_params]
    hands on never ends in a slash: it is the configured URL without
    its trailing slashes, and without anything else removed. *)
Theorem http_url_has_no_trailing_slash (server_config : dict) (url : string) :
  get_or server_config "url" (JStr "http://localhost:8000") = JStr url ->
  exists stripped tail,
    _get_server_params "http" server_config =
    Ret (StreamableHttpServerParams (JStr stripped)
           (get_or server_config "timeout" (JFloat "30.0"))
           (get_or server_config "sse_read_timeout" (JFloat "300.0"))
           (get_or server_config "terminate_on_close" (JBool true))) /\
    ends_with stripped "/" = false /\
    url = stripped +:+ tail /\ all_in "/" tail = true.
Proof.
  intros Hu. unfold _get_server_params.
  change (String.eqb "http" "docker") with false.
  change (String.eqb "http" "stdio") with false.
  change (String.eqb "http" "sse") with false.
  change (String.eqb "http" "http") with true. cbv iota. rewrite Hu.
  destruct (ends_with url "/") eqn:E.
  - destruct (rstrip_split "/" url) as (tail & Hs & Ht).
    exists (rstrip "/" url), tail. split; [ reflexivity | ].
    split; [ apply rstrip_ends | ]. split; [ exact Hs | exact Ht ].
  - exists url, "". split; [ reflexivity | ]. split; [ exact E | ].
    split; [ | reflexivity ].
    clear. induction url as [ | c url IH ];
      rewrite ?append_nil, ?append_cons; [ reflexivity | ].
    f_equal. exact IH.
Qed.

Lemma http_url_has_no_trailing_slash_witness :
  exists stripped tail,
    _get_server_params "http" [("url", JStr "http://localhost:9000//")] =
    Ret (StreamableHttpServerParams (JStr stripped)
           (get_or [("url", JStr "http://localhost:9000//")] "timeout"
              (JFloat "30.0"))
           (get_or [("url", JStr "http://localhost:9000//")]
              "sse_read_timeout" (JFloat "300.0"))
           (get_or [("url", JStr "http://localhost:9000//")]
              "terminate_on_close" (JBool true))) /\
    ends_with stripped "/" = false /\
    "http://localhost:9000//" = stripped +:+ tail /\ all_in "/" tail = true.
Proof.
  apply (http_url_has_no_trailing_slash
           [("url", JStr "http://localhost:9000//")]
           "http://localhost:9000//").
  reflexivity.
Defined.

(** X26: the transports that the command line admits never reach the
    [ValueError] of [_get_server_params], nor the [AttributeError] of a
    URL that is no text: [cli] always builds a configuration unless
    splitting the server arguments fails, which only the transport
    [stdio] attempts, and on every configuration it builds
    [_get_server_params] returns parameters. *)
Theorem admitted_transports_get_parameters
    (shlex_split : string -> outcome (list string))
    (transport server_script server_args server_url : string)
    (server_port timeout : Z) :
  transport ∈ ["stdio"; "sse"; "http"; "docker"] ->
  (transport <> "stdio" ->
   returns (cli shlex_split transport server_script server_args server_url
              server_port timeout)) /\
  (forall server_config,
     cli shlex_split transport server_script server_args server_url
       server_port timeout = Ret server_config ->
     returns (_get_server_params transport server_config)).
Proof.
  intros Hin. rewrite !elem_of_cons, elem_of_nil in Hin.
  destruct Hin as [ -> | [ -> | [ -> | [ -> | [] ] ] ] ].
  - split; [ intros H; contradiction | ]. intros cfg _. apply returns_Ret.
  - split; [ intros _; apply returns_Ret | ]. intros cfg _. apply returns_Ret.
  - split; [ intros _; apply returns_Ret | ].
    unfold cli. change (String.eqb "http" "stdio") with false.
    change (String.eqb "http" "sse") with false. cbv iota.
    intros cfg [= <-]. unfold _get_server_params.
    change (String.eqb "http" "docker") with false.
    change (String.eqb "http" "stdio") with false.
    change (String.eqb "http" "sse") with false.
    change (String.eqb "http" "http") with true. cbv iota.
    unfold get_or at 1. simpl dict_get. apply returns_Ret.
  - split; [ intros _; apply returns_Ret | ]. intros cfg _. apply returns_Ret.
Qed.

Lemma admitted_transports_get_parameters_witness :
  returns
    (_get_server_params "http"
       [("timeout", JInt 30); ("read_timeout", JInt 30);
        ("sse_read_timeout", JInt 300);
        ("url", JStr "http://localhost:9000")]).
Proof.
  refine (proj2
    (admitted_transports_get_parameters (fun text => Ret [text]) "http"
       "mcp_server.py" "" "http://localhost:8000" 9000 30 _) _ _).
  - right. right. left.
  - vm_compute. reflexivity.
Defined.

End McpCliProperties.

Section CallArguments.

Lemma dict_set_elem_of (d : dict) (k : string) (v : json)
    (kv : string * json) :
  kv ∈ dict_set d k v -> kv ∈ d \/ kv = (k, v).
Proof.
  intros H.
  assert (Forall (fun x => x ∈ d \/ x = (k, v)) (dict_set d k v)) as HF.
  { apply dict_set_Forall.
    - apply Forall_forall. intros x Hx. left. exact Hx.
    - right. reflexivity. }
  rewrite Forall_forall in HF. apply HF, H.
Qed.

Lemma parse_arguments_source (arg : list string) (arguments result : dict)
    (kv : string * json) :
  parse_arguments arg arguments = Some result -> kv ∈ result ->
  kv ∈ arguments \/
  exists value,
    snd kv = JStr value /\ (fst kv +:+ "=" +:+ value) ∈ arg /\
    contains "=" (fst kv) = false.
Proof.
  revert arguments. induction arg as [ | a arg IH ]; intros arguments; simpl.
  - intros [= <-] H. left. exact H.
  - destruct (contains "=" a); [ | discriminate ].
    destruct (split_once "=" a) as [ [key value] | ] eqn:E; [ | discriminate ].
    intros H Hin. apply split_once_Some in E as [-> Hk].
    destruct (IH _ H Hin) as [ Hset | (v & H1 & H2 & H3) ].
    + apply dict_set_elem_of in Hset as [ Hold | -> ]; [ left; exact Hold | ].
      right. exists value. simpl. split; [ reflexivity | ].
      split; [ left | ]. rewrite contains_char. exact Hk.
    + right. exists v. split; [ exact H1 | ]. split; [ right; exact H2 | ].
      exact H3.
Qed.

(** X27: every argument that the [call] command passes to the tool comes
    from an option [key=value]: its value is the text after the first
    equals sign, passed as text whatever it looks like, and its key is
    the text before, which holds no equals sign. *)
Theorem call_arguments_come_from_options (arg : list string) (result : dict)
    (key : string) (v : json) :
  parse_arguments arg [] = Some result ->
  (key, v) ∈ result ->
  exists value,
    v = JStr value /\ (key +:+ "=" +:+ value) ∈ arg /\
    contains "=" key = false.
Proof.
  intros H Hin.
  destruct (parse_arguments_source arg [] result (key, v) H Hin)
    as [ Hnil | Hsrc ]; [ inversion Hnil | exact Hsrc ].
Qed.

Lemma call_arguments_come_from_options_witness :
  exists value,
    JStr "2=3" = JStr value /\
    ("a" +:+ "=" +:+ value) ∈ ["a=1"; "b=x"; "a=2=3"] /\
    contains "=" "a" = false.
Proof.
  apply (call_arguments_come_from_options ["a=1"; "b=x"; "a=2=3"]
           [("a", JStr "2=3"); ("b", JStr "x")] "a" (JStr "2=3")).
  - reflexivity.
  - left.
Defined.

(** X28: the [call] command gives up exactly when some option holds no
    equals sign; in particular, cutting an option that holds one never
    fails to give two parts. *)
Theorem call_gives_up_without_equals (arg : list string) (arguments : dict) :
  parse_arguments arg arguments = None <->
  Exists (fun a => contains "=" a = false) arg.
Proof.
  revert arguments. induction arg as [ | a arg IH ]; intros arguments; simpl.
  - split; [ discriminate | intros H; inversion H ].
  - rewrite Exists_cons. destruct (contains "=" a) eqn:E.
    + destruct (split_once "=" a) as [ [key value] | ] eqn:S.
      * rewrite IH. split; [ auto | ].
        intros [ H | H ]; [ discriminate | exact H ].
      * apply split_once_None in S. rewrite contains_char in E. congruence.
    + split; auto.
Qed.

End CallArguments.

(** ** Removal of duplicates (src/mcp_proxy.py, lines 166-169) *)

Section Duplicates.

Lemma filter_filter_bool (f g : string -> bool) (l : list string) :
  List.filter f (List.filter g l) = List.filter (fun x => g x && f x) l.
Proof.
  induction l as [ | x l IH ]; simpl; [ reflexivity | ].
  destruct (g x); simpl; [ destruct (f x) | ]; rewrite IH; reflexivity.
Qed.

Lemma mem_app (x : string) (l l' : list string) :
  mem x (l ++ l') = mem x l || mem x l'.
Proof. unfold mem. apply existsb_app. Qed.

(** What the loop adds to the names seen so far is what it would collect
    from nothing, without the names seen. *)
Lemma unique_from_seen (seen ts : list string) :
  unique_from seen ts =
  seen ++ List.filter (fun x => negb (mem x seen)) (unique_from [] ts).
Proof.
  revert seen. induction ts as [ | t ts IH ]; intros seen; simpl.
  - rewrite app_nil_r. reflexivity.
  - rewrite (IH [t]). simpl.
    destruct (mem t seen) eqn:E; simpl; rewrite IH.
    + f_equal. rewrite filter_filter_bool. apply List.filter_ext.
      intros x. change (mem x [t]) with (String.eqb x t || false).
      rewrite orb_false_r.
      destruct (String.eqb x t) eqn:Ex; [ | reflexivity ].
      apply String.eqb_eq in Ex. subst. rewrite E. reflexivity.
    + rewrite <- app_assoc. simpl. do 2 f_equal.
      rewrite filter_filter_bool. apply List.filter_ext.
      intros x. rewrite mem_app.
      change (mem x [t]) with (String.eqb x t || false).
      rewrite !orb_false_r, negb_orb. apply andb_comm.
Qed.

(** X29: the removal of duplicates keeps first occurrences: the first
    annotation stays first, and what follows is what the rest gives,
    without that annotation. *)
Theorem duplicates_keep_first_occurrence (t : string) (rest : list string) :
  unique_types (t :: rest) =
  t :: List.filter (fun x => negb (String.eqb x t)) (unique_types rest).
Proof.
  unfold unique_types. simpl. rewrite unique_from_seen. simpl. f_equal.
  apply List.filter_ext. intros x. unfold mem. simpl.
  rewrite orb_false_r. reflexivity.
Qed.

End Duplicates.

(** ** Sessions under a host that interleaves the generated functions *)

Section Interleaving.

Variable e : env.
















(** Run without interruption, a coroutine does what [invoke] does. *)
Lemma run_alone_invoke (s : stub) (kwargs : dict) (w : world) :
  run_alone e (Called s kwargs) w =
  (Finished (fst (invoke e s kwargs w)), snd (invoke e s kwargs w)).
Proof.
  unfold run_alone, invoke, with_client. simpl.
  destruct (call_args s kwargs); try reflexivity.
  destruct (calls_its_argument s); [ reflexivity | ].
  destruct (rebinds_globals s); [ reflexivity | ]. simpl.
  destruct (connect_fails e (next_session w)); reflexivity.
Qed.

End Interleaving.

Section InterleavingProperties.



End InterleavingProperties.
